(** * Break nodes for PyVRP instances: a shallow embedding

    This development embeds the two modules
    [pyvrp/utils/break_nodes.py] and [pyvrp/utils/repair_breaks.py]
    and proves the properties their specification states.

    Python integers are [Z]; sizes and loop counters that range over
    [range(n)] are [nat].  A numpy array of rank two is a list of rows.
    A Python [set] is a [gset].  Exceptions are the [Raise] branch of
    [result]. *)

From stdpp Require Import base numbers option list gmap strings pretty.

Open Scope Z_scope.

(** ** Exceptions *)

Inductive exn : Type :=
  | IndexError
  | ValueError
  | OverflowError
  | ZeroDivisionError.

Inductive result (A : Type) : Type :=
  | Ok (a : A)
  | Raise (e : exn).
Arguments Ok {A} a.
Arguments Raise {A} e.

(** [result] is a monad in stdpp's sense, so the sequencing notation
    [x ← m; k] stops at the first exception. *)
Global Instance result_ret : MRet result := λ A a, Ok a.
Global Instance result_bind : MBind result := λ A B k m,
  match m with
  | Ok a => k a
  | Raise e => Raise e
  end.

(** ** Route reconciliation ([repair_breaks.py]) *)

(** A route handed to the reconciler is either an object with a
    [visits()] method or already a plain list of node ids; a solution is
    either an object with a [routes()] method or a plain list of
    routes.  The code tries the method first and falls back. *)
Inductive route_like : Type :=
  | RouteObj (visits : list Z)
  | RouteList (ids : list Z).

Inductive solution_like : Type :=
  | SolutionObj (routes : list route_like)
  | SolutionList (items : list route_like).

(** [try: routes = solution.routes() except Exception: routes = solution] *)
Definition routes_of (solution : solution_like) : list route_like :=
  match solution with
  | SolutionObj routes => routes
  | SolutionList items => items
  end.

(** [try: visits = list(r.visits()) except Exception: visits = list(r)] *)
Definition visits_of (r : route_like) : list Z :=
  match r with
  | RouteObj visits => visits
  | RouteList ids => ids
  end.

(** Python's [list.insert(pos, x)] for [0 <= pos]: the new element goes
    before index [pos], or at the end when [pos] exceeds the length. *)
Definition py_insert {A : Type} (pos : nat) (x : A) (l : list A) : list A :=
  take pos l ++ x :: drop pos l.

(** The inner [for b in break_indices] loop: the first index that is
    not in [used_breaks]. *)
Definition first_unused (break_indices : list Z) (used_breaks : gset Z)
    : option Z :=
  List.find (λ b, bool_decide (b ∉ used_breaks)) break_indices.

Record repair_state : Type := RepairState {
  final_routes : list (list Z);
  used_breaks : gset Z;
  all_ok : bool
}.

(** [insert_pos = 1 if len(visits) >= 1 else 0; visits.insert(...)] *)
Definition insert_break (b : Z) (visits : list Z) : list Z :=
  let insert_pos := if bool_decide (1 ≤ length visits)%nat then 1%nat else 0%nat in
  py_insert insert_pos b visits.

(** One iteration of [for r in routes]. *)
Definition repair_step (break_indices : list Z) (st : repair_state)
    (r : route_like) : repair_state :=
  let visits := visits_of r in
  match first_unused break_indices (used_breaks st) with
  | None =>
      {| final_routes := final_routes st ++ [visits];
         used_breaks := used_breaks st;
         all_ok := false |}
  | Some assigned_break =>
      {| final_routes := final_routes st ++ [insert_break assigned_break visits];
         used_breaks := {[assigned_break]} ∪ used_breaks st;
         all_ok := all_ok st |}
  end.

Definition repair_one_break_per_route {D : Type} (data : D)
    (solution : solution_like) (break_indices : list Z)
    : list (list Z) * bool :=
  let st0 := {| final_routes := []; used_breaks := ∅; all_ok := true |} in
  let st := foldl (repair_step break_indices) st0 (routes_of solution) in
  (final_routes st, all_ok st).

(** [has_non_break = any((v not in break_set) for v in r)] *)
Definition has_non_break (break_set : gset Z) (r : list Z) : bool :=
  existsb (λ v, bool_decide (v ∉ break_set)) r.

Definition remove_break_only_routes (final_routes : list (list Z))
    (break_indices : list Z) : list (list Z) * nat :=
  let break_set : gset Z := list_to_set break_indices in
  foldl (λ '(filtered, removed) r,
           if negb (has_non_break break_set r)
           then (filtered, S removed)
           else (filtered ++ [r], removed))
        ([], 0%nat) final_routes.

(** ** Matrices as numpy uses them ([break_nodes.py]) *)

(** A rank-two integer array, row by row.  Every array the code builds
    has at least one row, so the column count is read off the first
    row. *)
Abbreviation Matrix := (list (list Z)).

Definition nrows (M : Matrix) : nat := length M.
Definition ncols (M : Matrix) : nat := length (default [] (head M)).

(** [M[i, j]], when both indices are in range. *)
Definition entry (M : Matrix) (i j : nat) : option Z :=
  M !! i ≫= (.!! j).

(** The array has shape [(r, c)]. *)
Definition has_shape (r c : nat) (M : Matrix) : Prop :=
  length M = r ∧ Forall (λ row, length row = c) M.

(** [np.zeros((r, c))] and [np.full((r, c), v)] *)
Definition np_full (r c : nat) (v : Z) : Matrix := replicate r (replicate c v).
Definition np_zeros (r c : nat) : Matrix := np_full r c 0.

(** Apply [f i j] to the entry at row [i], column [j]. *)
Definition mat_imap (f : nat → nat → Z → Z) (M : Matrix) : Matrix :=
  imap (λ i row, imap (f i) row) M.

(** A source of shape [(a, b)] can be assigned to a region of shape
    [(rr, cc)] when each of its axes has the region's length or
    length one (numpy's broadcasting rule for two axes). *)
Definition broadcastable (a b rr cc : nat) : bool :=
  (bool_decide (a = rr) || bool_decide (a = 1%nat)) &&
  (bool_decide (b = cc) || bool_decide (b = 1%nat)).

(** [tgt[r0:r1, c0:c1] = src].  Slice bounds are clipped to the array;
    a source that cannot be broadcast to the region raises
    [ValueError]. *)
Definition assign_block (r0 r1 c0 c1 : nat) (src tgt : Matrix)
    : result Matrix :=
  let r1' := (r1 `min` nrows tgt)%nat in
  let c1' := (c1 `min` ncols tgt)%nat in
  let a := nrows src in
  let b := ncols src in
  if broadcastable a b (r1' - r0) (c1' - c0) then
    Ok (mat_imap (λ i j x,
          if bool_decide (r0 ≤ i < r1' ∧ c0 ≤ j < c1')%nat then
            let si := if bool_decide (a = 1%nat) then 0%nat else (i - r0)%nat in
            let sj := if bool_decide (b = 1%nat) then 0%nat else (j - c0)%nat in
            default 0 (entry src si sj)
          else x) tgt)
  else Raise ValueError.

(** [M[0:1, :]] and [M[:, 0:1]] *)
Definition first_row (M : Matrix) : Matrix := take 1 M.
Definition first_col (M : Matrix) : Matrix := take 1 <$> M.

(** [np.fill_diagonal(M, v)] *)
Definition fill_diagonal (M : Matrix) (v : Z) : Matrix :=
  imap (λ i row, <[i := v]> row) M.

(** [M[b, :] = v] *)
Definition set_row (b : nat) (v : Z) (M : Matrix) : result Matrix :=
  if bool_decide (b < nrows M)%nat
  then Ok (alter (λ row, replicate (length row) v) b M)
  else Raise IndexError.

(** [M[:, b] = v] *)
Definition set_col (b : nat) (v : Z) (M : Matrix) : result Matrix :=
  if bool_decide (b < ncols M)%nat
  then Ok ((λ row, <[b := v]> row) <$> M)
  else Raise IndexError.

(** ** The problem instance *)

(** The classes [Depot], [Client], [VehicleType] and [ProblemData] come
    from the compiled extension [pyvrp._pyvrp]; they are records here,
    holding what their constructors were given.  The constructor of
    [Client] and [ProblemData.replace] check what they are given and
    raise when they reject it; those checks are code of the extension
    and are taken as the parameters [Client_check] and
    [ProblemData_check] below.  What the checks guarantee of an
    instance handed in is [wf_data].  Coordinates are kept as
    integers. *)
Module Depot.
Record t : Type := mk {
  x : Z;
  y : Z;
  service_duration : Z;
  tw_early : Z;
  tw_late : Z;
  name : string
}.
End Depot.

Module Client.
Record t : Type := mk {
  x : Z;
  y : Z;
  delivery : list Z;
  pickup : list Z;
  service_duration : Z;
  tw_early : Z;
  tw_late : Z;
  release_time : Z;
  prize : Z;
  required : bool;
  group : option Z;
  name : string
}.
End Client.

Module VehicleType.
Record t : Type := mk {
  num_available : nat;
  capacity : list Z;
  start_depot : nat;
  end_depot : nat;
  fixed_cost : Z;
  tw_early : Z;
  tw_late : Z;
  max_duration : Z;
  max_distance : Z;
  unit_distance_cost : Z;
  unit_duration_cost : Z;
  profile : nat;
  name : string
}.

(** [parent.replace(num_available=.., profile=.., name=..)]: every
    other field is taken from [parent]. *)
Definition replace (parent : t) (num_available' profile' : nat)
    (name' : string) : t :=
  {| num_available := num_available';
     capacity := capacity parent;
     start_depot := start_depot parent;
     end_depot := end_depot parent;
     fixed_cost := fixed_cost parent;
     tw_early := tw_early parent;
     tw_late := tw_late parent;
     max_duration := max_duration parent;
     max_distance := max_distance parent;
     unit_distance_cost := unit_distance_cost parent;
     unit_duration_cost := unit_duration_cost parent;
     profile := profile';
     name := name' |}.
End VehicleType.

Record ProblemData : Type := mkProblemData {
  depots : list Depot.t;
  clients : list Client.t;
  vehicle_types : list VehicleType.t;
  distance_matrices : list Matrix;
  duration_matrices : list Matrix
}.

Definition num_depots (data : ProblemData) : nat := length (depots data).
Definition num_clients (data : ProblemData) : nat := length (clients data).
Definition num_locations (data : ProblemData) : nat :=
  (num_depots data + num_clients data)%nat.
Definition num_profiles (data : ProblemData) : nat :=
  length (distance_matrices data).
Definition num_vehicle_types (data : ProblemData) : nat :=
  length (vehicle_types data).
Definition num_vehicles (data : ProblemData) : nat :=
  sum_list (VehicleType.num_available <$> vehicle_types data).

(** [data.distance_matrix(profile=p)] and [data.duration_matrix(profile=p)] *)
Definition distance_matrix (data : ProblemData) (p : nat) : result Matrix :=
  match distance_matrices data !! p with
  | Some M => Ok M
  | None => Raise IndexError
  end.
Definition duration_matrix (data : ProblemData) (p : nat) : result Matrix :=
  match duration_matrices data !! p with
  | Some M => Ok M
  | None => Raise IndexError
  end.

(** The instance with the clients and the matrices put in place of the
    old ones, and the instance with the vehicle types and the matrices
    put in place of the old ones: the values that [data.replace] hands
    to the constructor of [ProblemData]. *)
Definition with_clients_matrices (data : ProblemData)
    (clients' : list Client.t) (dist' dur' : list Matrix) : ProblemData :=
  {| depots := depots data;
     clients := clients';
     vehicle_types := vehicle_types data;
     distance_matrices := dist';
     duration_matrices := dur' |}.

Definition with_vehicles_matrices (data : ProblemData)
    (vehicle_types' : list VehicleType.t) (dist' dur' : list Matrix)
    : ProblemData :=
  {| depots := depots data;
     clients := clients data;
     vehicle_types := vehicle_types';
     distance_matrices := dist';
     duration_matrices := dur' |}.

(** What the constructor of [ProblemData] guarantees about the
    matrices of an instance: one distance and one duration matrix per
    profile, each of shape [num_locations × num_locations], and every
    vehicle type refers to a profile that exists. *)
Definition wf_data (data : ProblemData) : Prop :=
  length (duration_matrices data) = length (distance_matrices data) ∧
  Forall (has_shape (num_locations data) (num_locations data))
         (distance_matrices data) ∧
  Forall (has_shape (num_locations data) (num_locations data))
         (duration_matrices data) ∧
  Forall (λ vt, (VehicleType.profile vt < num_profiles data)%nat)
         (vehicle_types data).

(** ** [add_per_vehicle_break_nodes] *)

(** The arguments of the [Client(...)] call in the loop
    [for i in range(num_breaks)]. *)
Definition break_client (depot : Depot.t) (service tw_early tw_late : Z)
    (make_required : bool) (i : nat) : Client.t :=
  {| Client.x := Depot.x depot;
     Client.y := Depot.y depot;
     Client.delivery := [0];
     Client.pickup := [0];
     Client.service_duration := service;
     Client.tw_early := tw_early;
     Client.tw_late := tw_late;
     Client.release_time := 0;
     Client.prize := 0;
     Client.required := make_required;
     Client.group := None;
     Client.name := "break_" +:+ pretty i |}.

(** The body of [for profile in range(data.num_profiles)] once the two
    old matrices are at hand. *)
Definition expand_pair (zero_travel : bool)
    (old_num_locations new_num_locations : nat) (old_dist old_dur : Matrix)
    : result (Matrix * Matrix) :=
  let dist := np_zeros new_num_locations new_num_locations in
  let dur := np_zeros new_num_locations new_num_locations in
  dist ← assign_block 0 old_num_locations 0 old_num_locations old_dist dist;
  dur ← assign_block 0 old_num_locations 0 old_num_locations old_dur dur;
  '(dist, dur) ←
    (if negb zero_travel then
       dist ← assign_block old_num_locations (nrows dist) 0 old_num_locations
                (first_row old_dist) dist;
       dist ← assign_block 0 old_num_locations old_num_locations (ncols dist)
                (first_col old_dist) dist;
       dur ← assign_block old_num_locations (nrows dur) 0 old_num_locations
                (first_row old_dur) dur;
       dur ← assign_block 0 old_num_locations old_num_locations (ncols dur)
                (first_col old_dur) dur;
       Ok (dist, dur)
     else Ok (dist, dur));
  Ok (fill_diagonal dist 0, fill_diagonal dur 0).

(** The loop over the profiles, appending to [new_dist_mats] and
    [new_dur_mats]. *)
Fixpoint expand_profiles (data : ProblemData) (zero_travel : bool)
    (old_num_locations new_num_locations : nat) (profiles : list nat)
    : result (list Matrix * list Matrix) :=
  match profiles with
  | [] => Ok ([], [])
  | profile :: rest =>
      old_dist ← distance_matrix data profile;
      old_dur ← duration_matrix data profile;
      '(dist, dur) ← expand_pair zero_travel old_num_locations
                       new_num_locations old_dist old_dur;
      '(dists, durs) ← expand_profiles data zero_travel old_num_locations
                         new_num_locations rest;
      Ok (dist :: dists, dur :: durs)
  end.

Section Extension.
(** The checks of the extension: what the constructor of [Client] and
    the constructor of [ProblemData] (which [replace] calls) raise on
    the value they are given, if anything. *)
Variable Client_check : Client.t → option exn.
Variable ProblemData_check : ProblemData → option exn.

(** [Client(...)] *)
Definition Client_new (args : Client.t) : result Client.t :=
  match Client_check args with
  | Some e => Raise e
  | None => Ok args
  end.

(** The constructor of [ProblemData], as [replace] calls it. *)
Definition ProblemData_new (fields : ProblemData) : result ProblemData :=
  match ProblemData_check fields with
  | Some e => Raise e
  | None => Ok fields
  end.

(** [data.replace(clients=.., distance_matrices=.., duration_matrices=..)] *)
Definition replace_clients_matrices (data : ProblemData)
    (clients' : list Client.t) (dist' dur' : list Matrix)
    : result ProblemData :=
  ProblemData_new (with_clients_matrices data clients' dist' dur').

(** [data.replace(vehicle_types=.., distance_matrices=.., duration_matrices=..)] *)
Definition replace_vehicles_matrices (data : ProblemData)
    (vehicle_types' : list VehicleType.t) (dist' dur' : list Matrix)
    : result ProblemData :=
  ProblemData_new (with_vehicles_matrices data vehicle_types' dist' dur').

(** The loop [for i in range(num_breaks)], which builds one client per
    index and appends it to [break_clients]. *)
Fixpoint make_break_clients (depot : Depot.t) (service tw_early tw_late : Z)
    (make_required : bool) (indices : list nat) : result (list Client.t) :=
  match indices with
  | [] => Ok []
  | i :: rest =>
      c ← Client_new (break_client depot service tw_early tw_late
                        make_required i);
      break_clients ← make_break_clients depot service tw_early tw_late
                        make_required rest;
      Ok (c :: break_clients)
  end.

Definition add_per_vehicle_break_nodes (data : ProblemData) (num_breaks : Z)
    (depot_idx : Z) (make_required zero_travel : bool)
    (break_service : option Z) (break_tw : option (Z * Z))
    : result (ProblemData * list Z) :=
  if bool_decide (num_breaks ≤ 0) then Ok (data, [])
  else
    let depots := depots data in
    if bool_decide (depot_idx < 0 ∨ Z.of_nat (length depots) ≤ depot_idx)
    then Raise IndexError
    else
      depot ← from_option Ok (Raise IndexError) (depots !! Z.to_nat depot_idx);
      let old_clients := clients data in
      let service := match break_service with
                     | None => Depot.service_duration depot
                     | Some s => s
                     end in
      let default_tw := (11 * 60, 14 * 60) in
      let tw_early := match break_tw with
                      | None => default_tw.1
                      | Some tw => tw.1
                      end in
      let tw_late := match break_tw with
                     | None => default_tw.2
                     | Some tw => tw.2
                     end in
      break_clients ←
        make_break_clients depot service tw_early tw_late make_required
          (seq 0 (Z.to_nat num_breaks));
      let new_clients := old_clients ++ break_clients in
      let old_num_locations := num_locations data in
      let new_num_locations := (old_num_locations + Z.to_nat num_breaks)%nat in
      '(new_dist_mats, new_dur_mats) ←
        expand_profiles data zero_travel old_num_locations new_num_locations
          (seq 0 (num_profiles data));
      new_data ←
        replace_clients_matrices data new_clients new_dist_mats new_dur_mats;
      let break_client_start := num_locations data in
      let break_indices := seqZ (Z.of_nat break_client_start) num_breaks in
      Ok (new_data, break_indices).

(** ** [add_one_break_per_vehicle] *)

Section ProfileBuilder.
(** The constant [MAX_VALUE] of [pyvrp.constants], an integer that the
    element type of the matrices holds as it is. *)
Variable MAX_VALUE : Z.

(** The mask [allowed] of one vehicle: depots, then the original
    clients, then the assigned break node. *)
Definition allowed_mask (new_num_locations num_depots old_num_locations
    assigned_break_idx : nat) : list bool :=
  let allowed := replicate new_num_locations false in
  let allowed := imap (λ i a, if bool_decide (i < num_depots)%nat
                              then true else a) allowed in
  let original_client_idxs :=
    seq num_depots (old_num_locations - num_depots) in
  let allowed := foldl (λ acc i, <[i := true]> acc) allowed
                   original_client_idxs in
  <[assigned_break_idx := true]> allowed.

(** The body of [for b in range(old_num_locations, new_num_locations)]. *)
Definition forbid_break (assigned_break_idx : nat)
    (st : result (Matrix * Matrix)) (b : nat) : result (Matrix * Matrix) :=
  '(dist, dur) ← st;
  if bool_decide (b = assigned_break_idx) then Ok (dist, dur)
  else
    dist ← set_row b MAX_VALUE dist;
    dist ← set_col b MAX_VALUE dist;
    dur ← set_row b MAX_VALUE dur;
    dur ← set_col b MAX_VALUE dur;
    Ok (dist, dur).

(** The body of [for veh in range(num_vehicles)] that builds one
    profile.  [np.array(base, copy=True)] gives the loop its own copy,
    which is what a value is here.  The mask [allowed] is built and
    never read. *)
Definition vehicle_profile (base_dist base_dur : Matrix)
    (num_depots old_num_locations new_num_locations veh : nat)
    : result (Matrix * Matrix) :=
  let dist := base_dist in
  let dur := base_dur in
  '(dist, dur) ←
    (if bool_decide (nrows dist ≠ new_num_locations) then
       let tmpd := np_full new_num_locations new_num_locations MAX_VALUE in
       let tmpu := np_full new_num_locations new_num_locations MAX_VALUE in
       tmpd ← assign_block 0 old_num_locations 0 old_num_locations dist tmpd;
       tmpu ← assign_block 0 old_num_locations 0 old_num_locations dur tmpu;
       Ok (tmpd, tmpu)
     else Ok (dist, dur));
  let assigned_break_idx := (old_num_locations + veh)%nat in
  let allowed := allowed_mask new_num_locations num_depots
                   old_num_locations assigned_break_idx in
  '(dist, dur) ←
    foldl (forbid_break assigned_break_idx) (Ok (dist, dur))
      (seq old_num_locations (new_num_locations - old_num_locations));
  Ok (fill_diagonal dist 0, fill_diagonal dur 0).

Fixpoint vehicle_profiles (base_dist base_dur : Matrix)
    (num_depots old_num_locations new_num_locations : nat)
    (vehs : list nat) : result (list Matrix * list Matrix) :=
  match vehs with
  | [] => Ok ([], [])
  | veh :: rest =>
      '(dist, dur) ← vehicle_profile base_dist base_dur num_depots
                       old_num_locations new_num_locations veh;
      '(dist_mats, dur_mats) ← vehicle_profiles base_dist base_dur
                                 num_depots old_num_locations
                                 new_num_locations rest;
      Ok (dist :: dist_mats, dur :: dur_mats)
  end.

(** The second loop [for veh in range(num_vehicles)]: one vehicle
    type per vehicle. *)
Fixpoint per_vehicle_types (orig_vtypes : list VehicleType.t)
    (vehs : list nat) : result (list VehicleType.t) :=
  match vehs with
  | [] => Ok []
  | veh :: rest =>
      if bool_decide (length orig_vtypes = 0%nat) then Raise ZeroDivisionError
      else
        parent ← from_option Ok (Raise IndexError)
                   (orig_vtypes !! (veh `mod` length orig_vtypes)%nat);
        let new_vt := VehicleType.replace parent 1 veh (pretty veh) in
        new_vehicle_types ← per_vehicle_types orig_vtypes rest;
        Ok (new_vt :: new_vehicle_types)
  end.

Definition add_one_break_per_vehicle (data : ProblemData)
    (break_service : Z) (break_tw : Z * Z) (depot_idx : Z)
    : result (ProblemData * list Z) :=
  let num_vehicles := num_vehicles data in
  if bool_decide (num_vehicles ≤ 0)%nat then Ok (data, [])
  else
    '(new_data, break_indices) ←
      add_per_vehicle_break_nodes data (Z.of_nat num_vehicles) depot_idx true true
        (Some break_service) (Some break_tw);
    let old_num_locations := num_locations data in
    base_dist ← distance_matrix new_data 0;
    base_dur ← duration_matrix new_data 0;
    let new_num_locations := num_locations new_data in
    let num_depots := num_depots new_data in
    '(dist_mats, dur_mats) ←
      vehicle_profiles base_dist base_dur num_depots old_num_locations
        new_num_locations (seq 0 num_vehicles);
    let orig_vtypes := vehicle_types data in
    new_vehicle_types ← per_vehicle_types orig_vtypes (seq 0 num_vehicles);
    new_data ←
      replace_vehicles_matrices new_data new_vehicle_types dist_mats dur_mats;
    let break_indices :=
      seqZ (Z.of_nat old_num_locations) (Z.of_nat num_vehicles) in
    Ok (new_data, break_indices).
End ProfileBuilder.
End Extension.

(** ** Vocabulary of the specification *)

(** Every visit of the route is a break index (true of the empty
    route). *)
Definition all_breaks (break_indices : list Z) (r : list Z) : Prop :=
  Forall (λ v, v ∈ break_indices) r.

Global Instance all_breaks_dec break_indices r :
  Decision (all_breaks break_indices r).
Proof. unfold all_breaks. apply _. Defined.

(** What the route at position [i] becomes. *)
Definition route_outcome (break_indices : list Z) (i : nat) (r : route_like)
    : list Z :=
  match break_indices !! i with
  | Some b => insert_break b (visits_of r)
  | None => visits_of r
  end.

(** The state of the loop after the first [i] routes. *)
Definition repair_prefix (break_indices : list Z) (solution : solution_like)
    (i : nat) : repair_state :=
  foldl (repair_step break_indices)
        {| final_routes := []; used_breaks := ∅; all_ok := true |}
        (take i (routes_of solution)).

(** The entry at row [i], column [j] that the specification gives the
    expanded matrix of a profile whose old matrix is [M]: zero on the
    diagonal, the old entry in the top-left block, and in the new rows
    and columns zero, or with [zero_travel] off the entry of row 0 (for
    a new row over an old column) or of column 0 (for a new column over
    an old row). *)
Definition expanded_entry (zero_travel : bool) (old_num_locations : nat)
    (M : Matrix) (i j : nat) : Z :=
  if decide (i = j) then 0
  else if decide (i < old_num_locations ∧ j < old_num_locations)%nat
  then default 0 (entry M i j)
  else if zero_travel then 0
  else if decide (old_num_locations ≤ i ∧ j < old_num_locations)%nat
  then default 0 (entry M 0 j)
  else if decide (i < old_num_locations ∧ old_num_locations ≤ j)%nat
  then default 0 (entry M i 0)
  else 0.

(** The matrix has shape [(n, n)] and its entries are given by [f]. *)
Definition tabulates (n : nat) (f : nat → nat → Z) (M : Matrix) : Prop :=
  has_shape n n M ∧
  ∀ i j, (i < n)%nat → (j < n)%nat → entry M i j = Some (f i j).

(** The expanded matrices, position by position with the old ones. *)
Definition expands (zero_travel : bool) (old new : nat)
    (olds news : list Matrix) : Prop :=
  Forall2 (λ M M', tabulates new (expanded_entry zero_travel old M) M')
          olds news.

(** Distance or duration: the two families of matrices of an
    instance. *)
Inductive cost_kind : Type := Distance | Duration.

Definition matrices_of (kind : cost_kind) (data : ProblemData)
    : list Matrix :=
  match kind with
  | Distance => distance_matrices data
  | Duration => duration_matrices data
  end.

(** The entry at row [i], column [j] that the specification gives the
    matrix of vehicle [veh], over the base matrix with entries [base]:
    zero on the diagonal, [MAX_VALUE] in the row and the column of every
    break node other than the one at [old_num_locations + veh], the
    base entry elsewhere. *)
Definition vehicle_entry (MAX_VALUE : Z) (old_num_locations veh : nat)
    (base : nat → nat → Z) (i j : nat) : Z :=
  if decide (i = j) then 0
  else if decide ((old_num_locations ≤ i ∧ i ≠ old_num_locations + veh) ∨
                  (old_num_locations ≤ j ∧ j ≠ old_num_locations + veh))%nat
  then MAX_VALUE
  else base i j.

(** The instance has [n] load dimensions: the delivery and the pickup
    vector of every client and the capacity vector of every vehicle
    type have [n] entries. *)
Definition load_dimensions (data : ProblemData) (n : nat) : Prop :=
  Forall (λ c, length (Client.delivery c) = n ∧ length (Client.pickup c) = n)
         (clients data) ∧
  Forall (λ vt, length (VehicleType.capacity vt) = n) (vehicle_types data).

(** Checks of the kind the extension makes, to run the functions on a
    sample: a client is rejected with [OverflowError] when a duration
    or a time does not fit 64 bits, and with [ValueError] when its
    service duration is negative or its time window is inverted; an
    instance is rejected with [ValueError] when a client or a vehicle
    type has not as many load entries as the first client (or, without
    clients, the first vehicle type). *)
Definition sample_Client_check (c : Client.t) : option exn :=
  if bool_decide (2 ^ 63 ≤ Client.service_duration c ∨
                  2 ^ 63 ≤ Client.tw_early c ∨ 2 ^ 63 ≤ Client.tw_late c)
  then Some OverflowError
  else if bool_decide (Client.service_duration c < 0 ∨
                       Client.tw_late c < Client.tw_early c)
  then Some ValueError
  else None.

Definition sample_num_load_dimensions (data : ProblemData) : nat :=
  match clients data with
  | c :: _ => length (Client.delivery c)
  | [] =>
      match vehicle_types data with
      | vt :: _ => length (VehicleType.capacity vt)
      | [] => 0%nat
      end
  end.

Definition sample_ProblemData_check (data : ProblemData) : option exn :=
  if bool_decide (load_dimensions data (sample_num_load_dimensions data))
  then None
  else Some ValueError.

(** A small instance: one depot, one client, one vehicle type with two
    vehicles, one profile. *)
Definition sample_depot : Depot.t :=
  {| Depot.x := 1; Depot.y := 2; Depot.service_duration := 7;
     Depot.tw_early := 0; Depot.tw_late := 1000; Depot.name := "depot" |}.

Definition sample_client : Client.t :=
  {| Client.x := 3; Client.y := 4; Client.delivery := [1];
     Client.pickup := [0]; Client.service_duration := 5;
     Client.tw_early := 0; Client.tw_late := 1000;
     Client.release_time := 0; Client.prize := 0;
     Client.required := true; Client.group := None;
     Client.name := "client" |}.

Definition sample_vehicle_type : VehicleType.t :=
  {| VehicleType.num_available := 2; VehicleType.capacity := [10];
     VehicleType.start_depot := 0; VehicleType.end_depot := 0;
     VehicleType.fixed_cost := 0; VehicleType.tw_early := 0;
     VehicleType.tw_late := 1000; VehicleType.max_duration := 1000;
     VehicleType.max_distance := 1000;
     VehicleType.unit_distance_cost := 1;
     VehicleType.unit_duration_cost := 0;
     VehicleType.profile := 0; VehicleType.name := "truck" |}.

Definition sample_data : ProblemData :=
  {| depots := [sample_depot];
     clients := [sample_client];
     vehicle_types := [sample_vehicle_type];
     distance_matrices := [[[0; 5]; [6; 0]]];
     duration_matrices := [[[0; 8]; [9; 0]]] |}.

(** The break node of vehicle [veh] is the node [first_break + veh]:
    the break index returned for [veh] is that node, and in the
    matrices of [veh] that node is at cost zero from and to every depot
    and every original client. *)
Definition own_break_at (Client_check : Client.t → option exn)
    (ProblemData_check : ProblemData → option exn)
    (MAX_VALUE : Z) (data : ProblemData)
    (break_service : Z) (break_tw : Z * Z) (depot_idx : Z)
    (first_break : nat) : Prop :=
  ∀ new_data break_indices,
    add_one_break_per_vehicle Client_check ProblemData_check MAX_VALUE data
      break_service break_tw depot_idx
    = Ok (new_data, break_indices) →
    ∀ veh kind M,
      (veh < num_vehicles data)%nat →
      matrices_of kind new_data !! veh = Some M →
      break_indices !! veh = Some (Z.of_nat (first_break + veh)) ∧
      ∀ i, (i < num_locations data)%nat →
        entry M (first_break + veh) i = Some 0 ∧
        entry M i (first_break + veh) = Some 0.

(** The matrix is square of dimension [n] with a zero diagonal. *)
Definition square_zero_diagonal (n : nat) (M : Matrix) : Prop :=
  has_shape n n M ∧ ∀ i, (i < n)%nat → entry M i i = Some 0.

(** The break indices in the order of their first occurrence, without
    those already in [seen]. *)
Fixpoint first_occurrences (seen : gset Z) (break_indices : list Z)
    : list Z :=
  match break_indices with
  | [] => []
  | b :: rest =>
      if decide (b ∈ seen) then first_occurrences seen rest
      else b :: first_occurrences ({[b]} ∪ seen) rest
  end.

(** The matrix agrees with its transpose on the first [n] rows and
    columns. *)
Definition symmetric_upto (n : nat) (M : Matrix) : Prop :=
  ∀ i j, (i < n)%nat → (j < n)%nat → entry M i j = entry M j i.

(** * Properties *)

(** ** Filtering break-only routes *)

Lemma has_non_break_false (break_indices r : list Z) :
  has_non_break (list_to_set break_indices) r = false ↔
  all_breaks break_indices r.
Proof.
  unfold has_non_break, all_breaks.
  induction r as [|v r IH]; simpl.
  - split; [constructor | done].
  - rewrite orb_false_iff, IH, Forall_cons, bool_decide_eq_false.
    rewrite elem_of_list_to_set.
    split; intros [Hv Hr]; split; auto.
    destruct (decide (v ∈ break_indices)); [done | by destruct Hv].
Qed.

Lemma remove_loop_acc (break_indices : list Z) (rs acc : list (list Z))
    (n : nat) :
  foldl (λ '(filtered, removed) r,
           if negb (has_non_break (list_to_set break_indices) r)
           then (filtered, S removed)
           else (filtered ++ [r], removed))
        (acc, n) rs
  = (acc ++ filter (λ r, ¬ all_breaks break_indices r) rs,
     (n + length (filter (all_breaks break_indices) rs))%nat).
Proof.
  revert acc n. induction rs as [|r rs IH]; intros acc n; simpl.
  - by rewrite app_nil_r, Nat.add_0_r.
  - destruct (has_non_break _ r) eqn:Hnb; simpl; rewrite IH.
    + assert (¬ all_breaks break_indices r) as Hr.
      { rewrite <- has_non_break_false. congruence. }
      rewrite (filter_cons_True _ r rs) by done.
      rewrite (filter_cons_False (all_breaks break_indices) r rs) by done.
      by rewrite <- app_assoc.
    + apply has_non_break_false in Hnb.
      rewrite (filter_cons_False (λ r, ¬ all_breaks break_indices r) r rs)
        by (intros H; by apply H).
      rewrite (filter_cons_True (all_breaks break_indices) r rs) by done.
      simpl. f_equal. lia.
Qed.

Lemma remove_break_only_routes_filter (routes : list (list Z))
    (break_indices : list Z) :
  remove_break_only_routes routes break_indices
  = (filter (λ r, ¬ all_breaks break_indices r) routes,
     length (filter (all_breaks break_indices) routes)).
Proof. unfold remove_break_only_routes. by rewrite remove_loop_acc. Qed.

(** C9: [remove_break_only_routes] drops exactly the routes all of
    whose visits are break indices, the route without visits among
    them, and returns the routes it keeps with the number of routes it
    dropped; on the empty list of routes it returns the empty list and
    the count zero. *)
Theorem remove_break_only_routes_discards (routes : list (list Z))
    (break_indices : list Z) :
  (remove_break_only_routes routes break_indices).1
    = filter (λ r, ¬ all_breaks break_indices r) routes ∧
  (∀ r, r ∈ (remove_break_only_routes routes break_indices).1 ↔
        r ∈ routes ∧ ¬ all_breaks break_indices r) ∧
  (remove_break_only_routes routes break_indices).2
    = length (filter (all_breaks break_indices) routes) ∧
  all_breaks break_indices [] ∧
  remove_break_only_routes ([] :: routes) break_indices
    = ((remove_break_only_routes routes break_indices).1,
       S (remove_break_only_routes routes break_indices).2) ∧
  remove_break_only_routes [] break_indices = ([], 0%nat).
Proof.
  rewrite !remove_break_only_routes_filter. cbn [fst snd].
  split_and!; [done| |done|constructor| |done].
  - intros r. rewrite list_elem_of_filter. tauto.
  - rewrite (filter_cons_False (λ r, ¬ all_breaks break_indices r) [] routes).
    + rewrite (filter_cons_True (all_breaks break_indices) [] routes); [done|].
      constructor.
    + intros H. apply H. constructor.
Qed.

(** C10: the routes [remove_break_only_routes] keeps are the input
    routes themselves, in their original relative order, and the
    number kept plus the number removed is the number of input
    routes. *)
Theorem remove_break_only_routes_preserves (routes : list (list Z))
    (break_indices : list Z) :
  (remove_break_only_routes routes break_indices).1 `sublist_of` routes ∧
  (length (remove_break_only_routes routes break_indices).1
     + (remove_break_only_routes routes break_indices).2)%nat
    = length routes.
Proof.
  rewrite remove_break_only_routes_filter. simpl. split.
  - apply sublist_filter.
  - induction routes as [|r rs IH]; [done|].
    destruct (decide (all_breaks break_indices r)) as [Hr|Hr].
    + rewrite (filter_cons_False (λ r, ¬ all_breaks break_indices r) r rs)
        by (intros H; by apply H).
      rewrite (filter_cons_True (all_breaks break_indices) r rs) by done.
      simpl. lia.
    + rewrite (filter_cons_True (λ r, ¬ all_breaks break_indices r) r rs)
        by done.
      rewrite (filter_cons_False (all_breaks break_indices) r rs) by done.
      simpl. lia.
Qed.

(** ** Inserting one break per route *)

Lemma find_app_skip {A : Type} (P : A → bool) (l1 l2 : list A) :
  Forall (λ x, P x = false) l1 → List.find P (l1 ++ l2) = List.find P l2.
Proof.
  induction 1 as [|x l1 Hx _ IH]; simpl; [done|]. by rewrite Hx.
Qed.

(** With distinct break indices, the first one not among the first
    [k] is the one at position [k]. *)
Lemma first_unused_take (break_indices : list Z) (k : nat) :
  NoDup break_indices →
  first_unused break_indices (list_to_set (take k break_indices))
  = break_indices !! k.
Proof.
  intros Hnd. unfold first_unused.
  rewrite <- (take_drop k break_indices) at 1.
  rewrite find_app_skip.
  - rewrite <- (take_drop k break_indices) in Hnd.
    apply NoDup_app in Hnd as (_ & Hdisj & _).
    replace (break_indices !! k) with (drop k break_indices !! 0%nat)
      by (rewrite lookup_drop; f_equal; lia).
    destruct (drop k break_indices) as [|b rest]; simpl; [done|].
    rewrite bool_decide_eq_true_2; [done|].
    rewrite elem_of_list_to_set. intros Hb.
    apply (Hdisj b Hb). by left.
  - apply Forall_forall. intros b Hb.
    apply bool_decide_eq_false. intros Hn. apply Hn.
    by apply elem_of_list_to_set.
Qed.

Lemma take_S_set (break_indices : list Z) (k : nat) (b : Z) :
  break_indices !! k = Some b →
  {[b]} ∪ list_to_set (take k break_indices)
  =@{gset Z} list_to_set (take (S k) break_indices).
Proof.
  intros Hk. rewrite (take_S_r _ _ _ Hk), list_to_set_app_L. simpl.
  by rewrite union_empty_r_L, (comm_L (∪)).
Qed.

Lemma repair_loop_inv (break_indices : list Z) (rs : list route_like) :
  NoDup break_indices →
  ∀ (st : repair_state) (k : nat),
    used_breaks st = list_to_set (take k break_indices) →
    final_routes (foldl (repair_step break_indices) st rs)
      = final_routes st ++ imap (λ i, route_outcome break_indices (k + i)) rs ∧
    used_breaks (foldl (repair_step break_indices) st rs)
      = list_to_set (take (k + length rs) break_indices) ∧
    all_ok (foldl (repair_step break_indices) st rs)
      = all_ok st &&
        bool_decide (length rs = 0 ∨ k + length rs ≤ length break_indices)%nat.
Proof.
  intros Hnd. induction rs as [|r rs IH]; intros st k Hused; simpl.
  - by rewrite app_nil_r, Nat.add_0_r, andb_true_r.
  - unfold repair_step at 2 4 6.
    rewrite Hused, first_unused_take by done.
    destruct (break_indices !! k) as [b|] eqn:Hk.
    + edestruct (IH (RepairState
                       (final_routes st ++ [insert_break b (visits_of r)])
                       ({[b]} ∪ list_to_set (take k break_indices))
                       (all_ok st)) (S k)) as (Hf & Hu & Ha).
      { simpl. by apply take_S_set. }
      rewrite Hf, Hu, Ha. simpl.
      rewrite <- app_assoc. simpl.
      unfold route_outcome at 2. rewrite Nat.add_0_r, Hk.
      split_and!.
      * do 2 f_equal. apply imap_ext. intros i x _. simpl.
        f_equal. lia.
      * do 2 f_equal. lia.
      * f_equal. apply bool_decide_ext.
        apply lookup_lt_Some in Hk. lia.
    + edestruct (IH (RepairState (final_routes st ++ [visits_of r])
                       (list_to_set (take k break_indices)) false) k)
        as (Hf & Hu & Ha).
      { done. }
      rewrite Hf, Hu, Ha. simpl.
      rewrite <- app_assoc. simpl.
      unfold route_outcome at 2. rewrite Nat.add_0_r, Hk.
      apply lookup_ge_None in Hk.
      split_and!.
      * do 2 f_equal. apply imap_ext. intros i x _. simpl.
        unfold route_outcome.
        rewrite (lookup_ge_None_2 break_indices (k + i)) by lia.
        by rewrite (lookup_ge_None_2 break_indices (k + S i)) by lia.
      * by rewrite !take_ge by lia.
      * symmetry. rewrite andb_false_iff. right.
        apply bool_decide_eq_false. lia.
Qed.


Lemma repair_prefix_used (break_indices : list Z) (solution : solution_like)
    (i : nat) :
  NoDup break_indices →
  (i ≤ length (routes_of solution))%nat →
  used_breaks (repair_prefix break_indices solution i)
  = list_to_set (take i break_indices).
Proof.
  intros Hnd Hi. unfold repair_prefix.
  destruct (repair_loop_inv break_indices (take i (routes_of solution)) Hnd
              (RepairState [] ∅ true) 0%nat) as (_ & Hu & _); [done|].
  rewrite Hu, length_take. simpl. do 2 f_equal. lia.
Qed.

(** C2: with distinct break indices, the route at position [i] gets the
    break index at position [i], which is the first one not used by the
    routes before it, inserted after its first visit (or as only visit
    of a route without visits); routes past the last break index come
    out as they went in.  There is one output entry per route.  The
    flag is true when there are at most as many routes as break
    indices, and the indices handed out are then distinct; it is false
    when there are more routes than break indices. *)
Theorem repair_one_break_per_route_assigns {D : Type} (data : D)
    (solution : solution_like) (break_indices : list Z) :
  NoDup break_indices →
  let routes := routes_of solution in
  let R := length routes in
  let B := length break_indices in
  let out := (repair_one_break_per_route data solution break_indices).1 in
  let ok := (repair_one_break_per_route data solution break_indices).2 in
  length out = R ∧
  (∀ i r b, routes !! i = Some r → break_indices !! i = Some b →
     first_unused break_indices
       (used_breaks (repair_prefix break_indices solution i)) = Some b ∧
     out !! i = Some (insert_break b (visits_of r)) ∧
     insert_break b (visits_of r)
       = match visits_of r with
         | [] => [b]
         | v :: rest => v :: b :: rest
         end) ∧
  (∀ i r, routes !! i = Some r → break_indices !! i = None →
     out !! i = Some (visits_of r)) ∧
  ((R ≤ B)%nat → ok = true ∧ NoDup (take R break_indices)) ∧
  ((B < R)%nat → ok = false).
Proof.
  intros Hnd routes R B out ok.
  destruct (repair_loop_inv break_indices routes Hnd
              (RepairState [] ∅ true) 0%nat) as (Hf & _ & Ha); [done|].
  simpl in Hf, Ha.
  assert (out = imap (route_outcome break_indices) routes) as Hout.
  { subst out. unfold repair_one_break_per_route. simpl. exact Hf. }
  assert (ok = bool_decide (R = 0 ∨ R ≤ B)%nat) as Hok.
  { subst ok. unfold repair_one_break_per_route. simpl. exact Ha. }
  clearbody out ok. subst out ok.
  split_and!.
  - by rewrite length_imap.
  - intros i r b Hr Hb. split_and!.
    + rewrite repair_prefix_used, first_unused_take; try done.
      apply lookup_lt_Some in Hr. fold routes. lia.
    + rewrite list_lookup_imap, Hr. simpl.
      unfold route_outcome. by rewrite Hb.
    + unfold insert_break, py_insert. by destruct (visits_of r).
  - intros i r Hr Hb. rewrite list_lookup_imap, Hr. simpl.
    unfold route_outcome. by rewrite Hb.
  - intros HRB. split.
    + apply bool_decide_eq_true_2. by right.
    + rewrite <- (take_drop R break_indices) in Hnd.
      by apply NoDup_app in Hnd as (? & _).
  - intros HRB. apply bool_decide_eq_false. lia.
Qed.

Lemma repair_one_break_per_route_assigns_witness :
  NoDup [7; 8] ∧
  (repair_one_break_per_route ()
     (SolutionList [RouteList [1; 2]; RouteObj []; RouteList [3]])
     [7; 8]).2 = false.
Proof.
  assert (NoDup [7; 8]) as Hnd by compute_done.
  split; [exact Hnd|].
  apply (repair_one_break_per_route_assigns ()
           (SolutionList [RouteList [1; 2]; RouteObj []; RouteList [3]])
           [7; 8] Hnd).
  simpl. lia.
Defined.

(** ** Facts about the array operations *)

Section matrix_facts.
Implicit Types (M src tgt : Matrix) (i j r c : nat) (v : Z).

Lemma has_shape_row r c M i row :
  has_shape r c M → M !! i = Some row → length row = c.
Proof. intros [_ Hrows] Hi. by eapply (Forall_lookup_1 _ _ _ _ Hrows). Qed.

Lemma has_shape_nrows r c M : has_shape r c M → nrows M = r.
Proof. by intros [? _]. Qed.

Lemma has_shape_ncols r c M : has_shape r c M → (0 < r)%nat → ncols M = c.
Proof.
  intros [Hlen Hrows] Hr. unfold ncols.
  destruct M as [|row M]; simpl in *; [lia|].
  by inversion Hrows.
Qed.

Lemma entry_is_Some r c M i j :
  has_shape r c M → (i < r)%nat → (j < c)%nat → is_Some (entry M i j).
Proof.
  intros HM Hi Hj. unfold entry.
  destruct (lookup_lt_is_Some_2 M i) as [row Hrow].
  { destruct HM. lia. }
  rewrite Hrow. simpl. apply lookup_lt_is_Some_2.
  by rewrite (has_shape_row _ _ _ _ _ HM Hrow).
Qed.

Lemma has_shape_np_full r c v : has_shape r c (np_full r c v).
Proof.
  split; [apply length_replicate|].
  apply Forall_replicate, length_replicate.
Qed.

Lemma entry_np_full r c v i j :
  (i < r)%nat → (j < c)%nat → entry (np_full r c v) i j = Some v.
Proof.
  intros Hi Hj. unfold entry, np_full.
  rewrite lookup_replicate_2 by done. simpl.
  by apply lookup_replicate_2.
Qed.

Lemma has_shape_mat_imap r c f M :
  has_shape r c M → has_shape r c (mat_imap f M).
Proof.
  intros [Hlen Hrows]. split; unfold mat_imap.
  - by rewrite length_imap.
  - apply Forall_lookup. intros i row.
    rewrite list_lookup_imap.
    destruct (M !! i) as [row'|] eqn:Hi; simpl; [|done].
    intros [= <-]. rewrite length_imap.
    by eapply (Forall_lookup_1 _ _ _ _ Hrows).
Qed.

Lemma entry_mat_imap f M i j :
  entry (mat_imap f M) i j = f i j <$> entry M i j.
Proof.
  unfold entry, mat_imap. rewrite list_lookup_imap.
  destruct (M !! i) as [row|]; simpl; [|done].
  apply list_lookup_imap.
Qed.

Lemma has_shape_fill_diagonal r c M v :
  has_shape r c M → has_shape r c (fill_diagonal M v).
Proof.
  intros [Hlen Hrows]. split; unfold fill_diagonal.
  - by rewrite length_imap.
  - apply Forall_lookup. intros i row.
    rewrite list_lookup_imap.
    destruct (M !! i) as [row'|] eqn:Hi; simpl; [|done].
    intros [= <-]. rewrite length_insert.
    by eapply (Forall_lookup_1 _ _ _ _ Hrows).
Qed.

Lemma entry_fill_diagonal M v i j :
  entry (fill_diagonal M v) i j
  = (λ x, if decide (i = j) then v else x) <$> entry M i j.
Proof.
  unfold entry, fill_diagonal. rewrite list_lookup_imap.
  destruct (M !! i) as [row|]; simpl; [|done].
  destruct (decide (i = j)) as [->|Hij].
  - destruct (decide (j < length row)%nat) as [Hj|Hj].
    + rewrite list_lookup_insert_eq by done.
      destruct (lookup_lt_is_Some_2 row j Hj) as [x ->]. done.
    + rewrite list_insert_ge by lia.
      rewrite (lookup_ge_None_2 row j) by lia. done.
  - rewrite list_lookup_insert_ne by done.
    by destruct (row !! j).
Qed.

Lemma set_row_ok r c M b v :
  has_shape r c M → (b < r)%nat →
  ∃ M', set_row b v M = Ok M' ∧ has_shape r c M' ∧
    ∀ i j, entry M' i j
           = (λ x, if decide (i = b) then v else x) <$> entry M i j.
Proof.
  intros HM Hb. unfold set_row.
  rewrite bool_decide_eq_true_2 by (rewrite (has_shape_nrows _ _ _ HM); lia).
  eexists. split; [done|]. split.
  - destruct HM as [Hlen Hrows]. split; [by rewrite length_alter|].
    apply Forall_lookup. intros i row.
    destruct (decide (i = b)) as [->|Hib].
    + rewrite list_lookup_alter_eq.
      destruct (M !! b) as [row'|] eqn:Hrow; simpl; [|done].
      intros [= <-]. rewrite length_replicate.
      by eapply (Forall_lookup_1 _ _ _ _ Hrows).
    + rewrite list_lookup_alter_ne by done.
      intros Hrow. by eapply (Forall_lookup_1 _ _ _ _ Hrows).
  - intros i j. unfold entry.
    destruct (decide (i = b)) as [->|Hib].
    + rewrite list_lookup_alter_eq.
      destruct (M !! b) as [row|]; simpl; [|done].
      destruct (decide (j < length row)%nat) as [Hj|Hj].
      * rewrite lookup_replicate_2 by done.
        destruct (lookup_lt_is_Some_2 row j Hj) as [x ->]. done.
      * rewrite (lookup_ge_None_2 row j) by lia.
        apply lookup_ge_None_2. rewrite length_replicate. lia.
    + rewrite list_lookup_alter_ne by done.
      destruct (M !! i) as [row|]; simpl; [|done].
      by destruct (row !! j).
Qed.

Lemma set_col_ok r c M b v :
  has_shape r c M → (0 < r)%nat → (b < c)%nat →
  ∃ M', set_col b v M = Ok M' ∧ has_shape r c M' ∧
    ∀ i j, entry M' i j
           = (λ x, if decide (j = b) then v else x) <$> entry M i j.
Proof.
  intros HM Hr Hb. unfold set_col.
  rewrite bool_decide_eq_true_2
    by (rewrite (has_shape_ncols _ _ _ HM); lia).
  eexists. split; [done|]. split.
  - destruct HM as [Hlen Hrows]. split; [by rewrite length_fmap|].
    apply Forall_fmap. eapply Forall_impl; [exact Hrows|].
    intros row Hrow. simpl. by rewrite length_insert.
  - intros i j. unfold entry. rewrite list_lookup_fmap.
    destruct (M !! i) as [row|]; simpl; [|done].
    destruct (decide (j = b)) as [->|Hjb].
    + destruct (decide (b < length row)%nat) as [Hj|Hj].
      * rewrite list_lookup_insert_eq by done.
        destruct (lookup_lt_is_Some_2 row b Hj) as [x ->]. done.
      * rewrite list_insert_ge by lia.
        rewrite (lookup_ge_None_2 row b) by lia. done.
    + rewrite list_lookup_insert_ne by done.
      by destruct (row !! j).
Qed.
End matrix_facts.

Section assign_block_facts.
Implicit Types (M src tgt : Matrix) (i j : nat).

Lemma assign_block_ok (R C a b r0 r1 c0 c1 : nat) src tgt :
  has_shape R C tgt → (0 < R)%nat →
  has_shape a b src → (0 < a)%nat →
  (a = r1 `min` R - r0 ∨ a = 1)%nat →
  (b = c1 `min` C - c0 ∨ b = 1)%nat →
  ∃ M', assign_block r0 r1 c0 c1 src tgt = Ok M' ∧ has_shape R C M' ∧
    ∀ i j, entry M' i j
      = (λ x, if decide (r0 ≤ i < r1 `min` R ∧ c0 ≤ j < c1 `min` C)%nat
              then default 0 (entry src
                     (if decide (a = 1%nat) then 0 else i - r0)%nat
                     (if decide (b = 1%nat) then 0 else j - c0)%nat)
              else x) <$> entry tgt i j.
Proof.
  intros Htgt HR Hsrc Ha Hrows Hcols. unfold assign_block.
  rewrite (has_shape_nrows _ _ _ Htgt), (has_shape_ncols _ _ _ Htgt HR).
  rewrite (has_shape_nrows _ _ _ Hsrc), (has_shape_ncols _ _ _ Hsrc Ha).
  assert (broadcastable a b (r1 `min` R - r0) (c1 `min` C - c0) = true)
    as ->.
  { unfold broadcastable. rewrite andb_true_iff, !orb_true_iff.
    rewrite !bool_decide_eq_true. done. }
  eexists. split; [done|]. split.
  - by apply has_shape_mat_imap.
  - intros i j. rewrite entry_mat_imap.
    destruct (entry tgt i j); simpl; [|done].
    f_equal. repeat case_bool_decide; repeat case_decide; done.
Qed.

Lemma has_shape_first_row n M :
  has_shape n n M → (0 < n)%nat → has_shape 1 n (first_row M).
Proof.
  intros [Hlen Hrows] Hn. split; unfold first_row.
  - rewrite length_take. lia.
  - by apply Forall_take.
Qed.

Lemma entry_first_row M j : entry (first_row M) 0 j = entry M 0 j.
Proof. unfold entry, first_row. by rewrite lookup_take_lt by lia. Qed.

Lemma has_shape_first_col n M :
  has_shape n n M → (0 < n)%nat → has_shape n 1 (first_col M).
Proof.
  intros [Hlen Hrows] Hn. split; unfold first_col.
  - by rewrite length_fmap.
  - apply Forall_fmap. eapply Forall_impl; [exact Hrows|].
    intros row Hrow. simpl in *. rewrite length_take. lia.
Qed.

Lemma entry_first_col M i : entry (first_col M) i 0 = entry M i 0.
Proof.
  unfold entry, first_col. rewrite list_lookup_fmap.
  destruct (M !! i) as [row|]; simpl; [|done].
  by rewrite lookup_take_lt by lia.
Qed.
End assign_block_facts.

(** ** Expanding the matrices of one profile *)

Section expand_facts.
Implicit Types (M : Matrix) (i j : nat).
Variables (old new : nat).
Hypothesis Hold : (0 < old)%nat.
Hypothesis Hnew : (old ≤ new)%nat.

Lemma tabulates_ext n (f g : nat → nat → Z) M :
  (∀ i j, (i < n)%nat → (j < n)%nat → f i j = g i j) →
  tabulates n f M → tabulates n g M.
Proof.
  intros Hfg [Hs He]. split; [done|].
  intros i j Hi Hj. by rewrite He, Hfg.
Qed.

Lemma tabulates_np_full n v : tabulates n (λ _ _, v) (np_full n n v).
Proof. split; [apply has_shape_np_full|]. by apply entry_np_full. Qed.

Lemma tabulates_fill_diagonal n f M :
  tabulates n f M →
  tabulates n (λ i j, if decide (i = j) then 0 else f i j)
    (fill_diagonal M 0).
Proof.
  intros [Hs He]. split; [by apply has_shape_fill_diagonal|].
  intros i j Hi Hj. by rewrite entry_fill_diagonal, He.
Qed.

(** [tgt[:old, :old] = M] *)
Lemma copy_block_ok M f tgt :
  has_shape old old M → tabulates new f tgt →
  ∃ M', assign_block 0 old 0 old M tgt = Ok M' ∧
    tabulates new (λ i j, if decide (i < old ∧ j < old)%nat
                          then default 0 (entry M i j) else f i j) M'.
Proof.
  intros HM [Hs He].
  destruct (assign_block_ok new new old old 0 old 0 old M tgt)
    as (M' & -> & Hs' & He'); try done; try lia.
  exists M'. split; [done|]. split; [done|].
  intros i j Hi Hj. rewrite He', He by done. simpl. f_equal.
  repeat case_decide; try lia; do 2 f_equal; lia.
Qed.

(** [tgt[old:, :old] = M[0:1, :]] *)
Lemma copy_row0_ok M f tgt :
  has_shape old old M → tabulates new f tgt →
  ∃ M', assign_block old (nrows tgt) 0 old (first_row M) tgt = Ok M' ∧
    tabulates new (λ i j, if decide (old ≤ i ∧ j < old)%nat
                          then default 0 (entry M 0 j) else f i j) M'.
Proof.
  intros HM [Hs He]. rewrite (has_shape_nrows _ _ _ Hs).
  destruct (assign_block_ok new new 1 old old new 0 old (first_row M) tgt)
    as (M' & -> & Hs' & He'); try done; try lia.
  { by apply has_shape_first_row. }
  exists M'. split; [done|]. split; [done|].
  intros i j Hi Hj. rewrite He', He by done. simpl. f_equal.
  repeat case_decide; try lia; rewrite entry_first_row;
    do 2 f_equal; lia.
Qed.

(** [tgt[:old, old:] = M[:, 0:1]] *)
Lemma copy_col0_ok M f tgt :
  has_shape old old M → tabulates new f tgt →
  ∃ M', assign_block 0 old old (ncols tgt) (first_col M) tgt = Ok M' ∧
    tabulates new (λ i j, if decide (i < old ∧ old ≤ j)%nat
                          then default 0 (entry M i 0) else f i j) M'.
Proof.
  intros HM [Hs He]. rewrite (has_shape_ncols _ _ _ Hs) by lia.
  destruct (assign_block_ok new new old 1 0 old old new (first_col M) tgt)
    as (M' & -> & Hs' & He'); try done; try lia.
  { by apply has_shape_first_col. }
  exists M'. split; [done|]. split; [done|].
  intros i j Hi Hj. rewrite He', He by done. simpl. f_equal.
  repeat case_decide; try lia; rewrite entry_first_col;
    do 2 f_equal; lia.
Qed.

Lemma expand_pair_ok (zero_travel : bool) (old_dist old_dur : Matrix) :
  has_shape old old old_dist → has_shape old old old_dur →
  ∃ dist dur,
    expand_pair zero_travel old new old_dist old_dur = Ok (dist, dur) ∧
    tabulates new (expanded_entry zero_travel old old_dist) dist ∧
    tabulates new (expanded_entry zero_travel old old_dur) dur.
Proof.
  intros Hd Hu. unfold expand_pair, np_zeros.
  destruct (copy_block_ok old_dist _ _ Hd (tabulates_np_full new 0))
    as (d1 & -> & Hd1).
  destruct (copy_block_ok old_dur _ _ Hu (tabulates_np_full new 0))
    as (u1 & -> & Hu1).
  simpl. destruct zero_travel; simpl.
  - do 2 eexists. split; [done|].
    split; (eapply tabulates_ext; [|by apply tabulates_fill_diagonal]);
      intros i j _ _; unfold expanded_entry; by repeat case_decide.
  - destruct (copy_row0_ok old_dist _ _ Hd Hd1) as (d2 & -> & Hd2).
    simpl.
    destruct (copy_col0_ok old_dist _ _ Hd Hd2) as (d3 & -> & Hd3).
    simpl.
    destruct (copy_row0_ok old_dur _ _ Hu Hu1) as (u2 & -> & Hu2).
    simpl.
    destruct (copy_col0_ok old_dur _ _ Hu Hu2) as (u3 & -> & Hu3).
    simpl.
    do 2 eexists. split; [done|].
    split; (eapply tabulates_ext; [|by apply tabulates_fill_diagonal]);
      intros i j _ _; unfold expanded_entry;
      repeat case_decide; try done; lia.
Qed.
End expand_facts.

(** ** The synthesizer as a whole *)

Section synthesizer_facts.
Variables (data : ProblemData) (zero_travel : bool).
Hypothesis Hwf : wf_data data.

Local Abbreviation old := (num_locations data).

Lemma distance_matrix_shape p M :
  distance_matrices data !! p = Some M → has_shape old old M.
Proof.
  intros Hp. destruct Hwf as (_ & Hd & _).
  by eapply (Forall_lookup_1 _ _ _ _ Hd).
Qed.

Lemma duration_matrix_shape p M :
  duration_matrices data !! p = Some M → has_shape old old M.
Proof.
  intros Hp. destruct Hwf as (_ & _ & Hu & _).
  by eapply (Forall_lookup_1 _ _ _ _ Hu).
Qed.

Lemma expand_profiles_ok new (k n : nat) :
  (0 < old)%nat → (old ≤ new)%nat →
  (k + n)%nat = num_profiles data →
  ∃ dists durs,
    expand_profiles data zero_travel old new (seq k n) = Ok (dists, durs) ∧
    expands zero_travel old new (drop k (distance_matrices data)) dists ∧
    expands zero_travel old new (drop k (duration_matrices data)) durs.
Proof.
  intros Hold Hnew. revert k. induction n as [|n IH]; intros k Hkn.
  - exists [], []. split; [done|]. unfold expands.
    rewrite !drop_ge; [by split; constructor| |].
    + destruct Hwf as (-> & _). unfold num_profiles in Hkn. lia.
    + unfold num_profiles in Hkn. lia.
  - simpl. unfold distance_matrix, duration_matrix.
    destruct (lookup_lt_is_Some_2 (distance_matrices data) k)
      as [Md HMd]; [unfold num_profiles in Hkn; lia|].
    destruct (lookup_lt_is_Some_2 (duration_matrices data) k)
      as [Mu HMu].
    { destruct Hwf as (-> & _). unfold num_profiles in Hkn. lia. }
    rewrite HMd, HMu. simpl.
    destruct (expand_pair_ok old new Hold Hnew zero_travel Md Mu)
      as (dist & dur & -> & Hdist & Hdur).
    { by eapply distance_matrix_shape. }
    { by eapply duration_matrix_shape. }
    simpl.
    destruct (IH (S k)) as (dists & durs & -> & Hds & Hus); [lia|].
    simpl. exists (dist :: dists), (dur :: durs). split; [done|].
    unfold expands.
    rewrite (drop_S _ _ _ HMd), (drop_S _ _ _ HMu).
    split; by constructor.
Qed.
End synthesizer_facts.

Implicit Types (Client_check : Client.t → option exn)
  (ProblemData_check : ProblemData → option exn).

Lemma make_break_clients_Ok Client_check (depot : Depot.t)
    (service tw_early tw_late : Z) (make_required : bool)
    (indices : list nat) (cs : list Client.t) :
  make_break_clients Client_check depot service tw_early tw_late
    make_required indices = Ok cs →
  cs = break_client depot service tw_early tw_late make_required <$> indices ∧
  Forall (λ c, Client_check c = None) cs.
Proof.
  revert cs. induction indices as [|i rest IH]; intros cs; simpl.
  - intros [= <-]. by split; [|constructor].
  - unfold Client_new.
    destruct (Client_check (break_client depot service tw_early tw_late
                              make_required i)) as [e|] eqn:Hc; simpl.
    { intros [=]. }
    destruct (make_break_clients Client_check depot service tw_early tw_late
                make_required rest) as [cs'|e] eqn:Hrest; simpl.
    + intros [= <-]. destruct (IH cs' eq_refl) as [-> HF].
      split; [done|]. by constructor.
    + intros [=].
Qed.

Lemma make_break_clients_Raise Client_check (depot : Depot.t)
    (service tw_early tw_late : Z) (make_required : bool)
    (indices : list nat) (e : exn) :
  make_break_clients Client_check depot service tw_early tw_late
    make_required indices = Raise e →
  ∃ i, i ∈ indices ∧
    Client_check (break_client depot service tw_early tw_late
                    make_required i) = Some e.
Proof.
  induction indices as [|i rest IH]; simpl; [intros [=]|].
  unfold Client_new.
  destruct (Client_check (break_client depot service tw_early tw_late
                            make_required i)) as [e'|] eqn:Hc; simpl.
  { intros [= <-]. exists i. split; [apply list_elem_of_here|done]. }
  destruct (make_break_clients Client_check depot service tw_early tw_late
              make_required rest) as [cs'|e'] eqn:Hrest; simpl.
  - intros [=].
  - intros [= <-]. destruct (IH eq_refl) as (j & Hj & Hcj).
    exists j. split; [by apply list_elem_of_further|done].
Qed.

(** The call with at least one break, its defaults written with
    [default] and [from_option]. *)
Lemma add_per_vehicle_break_nodes_unfold Client_check ProblemData_check
    (data : ProblemData) (num_breaks : Z)
    (depot_idx : Z) (make_required zero_travel : bool)
    (break_service : option Z) (break_tw : option (Z * Z)) :
  0 < num_breaks →
  add_per_vehicle_break_nodes Client_check ProblemData_check data num_breaks
    depot_idx make_required zero_travel break_service break_tw
  = if bool_decide (depot_idx < 0 ∨ Z.of_nat (length (depots data)) ≤ depot_idx)
    then Raise IndexError
    else
      depot ← from_option Ok (Raise IndexError)
                (depots data !! Z.to_nat depot_idx);
      break_clients ←
        make_break_clients Client_check depot
          (default (Depot.service_duration depot) break_service)
          (from_option fst 660 break_tw) (from_option snd 840 break_tw)
          make_required (seq 0 (Z.to_nat num_breaks));
      '(dists, durs) ←
        expand_profiles data zero_travel (num_locations data)
          (num_locations data + Z.to_nat num_breaks)
          (seq 0 (num_profiles data));
      new_data ←
        replace_clients_matrices ProblemData_check data
          (clients data ++ break_clients) dists durs;
      Ok (new_data, seqZ (Z.of_nat (num_locations data)) num_breaks).
Proof.
  intros HK. unfold add_per_vehicle_break_nodes.
  rewrite bool_decide_eq_false_2 by lia.
  by destruct break_service, break_tw as [[??]|].
Qed.

(** What a call that returns has gone through. *)
Lemma add_per_vehicle_break_nodes_inv Client_check ProblemData_check
    (data : ProblemData) (num_breaks : Z)
    (depot_idx : Z) (make_required zero_travel : bool)
    (break_service : option Z) (break_tw : option (Z * Z))
    (new_data : ProblemData) (break_indices : list Z) :
  0 < num_breaks →
  add_per_vehicle_break_nodes Client_check ProblemData_check data num_breaks
    depot_idx make_required zero_travel break_service break_tw
  = Ok (new_data, break_indices) →
  ∃ depot dists durs,
    0 ≤ depot_idx < Z.of_nat (num_depots data) ∧
    depots data !! Z.to_nat depot_idx = Some depot ∧
    expand_profiles data zero_travel (num_locations data)
      (num_locations data + Z.to_nat num_breaks)
      (seq 0 (num_profiles data)) = Ok (dists, durs) ∧
    new_data
    = with_clients_matrices data
        (clients data ++
           (break_client depot
              (default (Depot.service_duration depot) break_service)
              (from_option fst 660 break_tw)
              (from_option snd 840 break_tw)
              make_required <$> seq 0 (Z.to_nat num_breaks)))
        dists durs ∧
    break_indices = seqZ (Z.of_nat (num_locations data)) num_breaks ∧
    Forall (λ c, Client_check c = None)
      (break_client depot
         (default (Depot.service_duration depot) break_service)
         (from_option fst 660 break_tw)
         (from_option snd 840 break_tw)
         make_required <$> seq 0 (Z.to_nat num_breaks)) ∧
    ProblemData_check new_data = None.
Proof.
  intros HK. rewrite add_per_vehicle_break_nodes_unfold by done.
  case_bool_decide as Hidx; [intros [=]|].
  destruct (depots data !! Z.to_nat depot_idx) as [depot|] eqn:Hdepot;
    simpl; [|intros [=]].
  destruct (make_break_clients _ _ _ _ _ _ _) as [cs|e] eqn:Hcs; simpl;
    [|intros [=]].
  apply make_break_clients_Ok in Hcs as [-> Hchecks].
  destruct (expand_profiles _ _ _ _ _) as [[dists durs]|e] eqn:Hexp; simpl;
    [|intros [=]].
  unfold replace_clients_matrices, ProblemData_new.
  destruct (ProblemData_check _) as [e|] eqn:Hpd; simpl; [intros [=]|].
  intros [= <- <-]. exists depot, dists, durs.
  unfold num_depots. split_and!; try done; lia.
Qed.

(** On a well-formed instance the matrices of the instance returned are
    the expansions of the old ones. *)
Lemma add_per_vehicle_break_nodes_returns Client_check ProblemData_check
    (data : ProblemData) (num_breaks : Z)
    (depot_idx : Z) (make_required zero_travel : bool)
    (break_service : option Z) (break_tw : option (Z * Z))
    (new_data : ProblemData) (break_indices : list Z) :
  wf_data data → 0 < num_breaks →
  add_per_vehicle_break_nodes Client_check ProblemData_check data num_breaks
    depot_idx make_required zero_travel break_service break_tw
  = Ok (new_data, break_indices) →
  ∃ depot dists durs,
    0 ≤ depot_idx < Z.of_nat (num_depots data) ∧
    depots data !! Z.to_nat depot_idx = Some depot ∧
    new_data
    = with_clients_matrices data
        (clients data ++
           (break_client depot
              (default (Depot.service_duration depot) break_service)
              (from_option fst 660 break_tw)
              (from_option snd 840 break_tw)
              make_required <$> seq 0 (Z.to_nat num_breaks)))
        dists durs ∧
    break_indices = seqZ (Z.of_nat (num_locations data)) num_breaks ∧
    expands zero_travel (num_locations data)
      (num_locations data + Z.to_nat num_breaks)
      (distance_matrices data) dists ∧
    expands zero_travel (num_locations data)
      (num_locations data + Z.to_nat num_breaks)
      (duration_matrices data) durs ∧
    ProblemData_check new_data = None.
Proof.
  intros Hwf HK Hrun.
  destruct (add_per_vehicle_break_nodes_inv _ _ _ _ _ _ _ _ _ _ _ HK Hrun)
    as (depot & dists & durs & Hidx & Hdepot & Hexp & Hnd & Hbi & _ & Hpd).
  destruct (expand_profiles_ok data zero_travel Hwf
              (num_locations data + Z.to_nat num_breaks) 0 (num_profiles data))
    as (dists' & durs' & Hexp' & Hds & Hus); try done; try lia.
  { apply lookup_lt_Some in Hdepot. unfold num_locations, num_depots. lia. }
  rewrite Hexp in Hexp'. injection Hexp' as <- <-.
  rewrite !drop_0 in *.
  exists depot, dists, durs. split_and!; try done; lia.
Qed.

Lemma sample_data_wf : wf_data sample_data.
Proof.
  unfold wf_data, has_shape. simpl.
  split_and!; repeat constructor.
Defined.

(** C4: for [num_breaks = K ≥ 0] and every instance, a call of
    [add_per_vehicle_break_nodes] that returns has appended exactly [K]
    clients to the client list and returns [K] break indices, the
    consecutive integers from the old number of locations
    ([num_depots] plus the old number of clients); with [K = 0] the
    call returns, and what it returns is the instance it was given and
    the empty list. *)
Theorem add_per_vehicle_break_nodes_counts Client_check ProblemData_check
    (data : ProblemData) (K : Z)
    (depot_idx : Z) (make_required zero_travel : bool)
    (break_service : option Z) (break_tw : option (Z * Z)) :
  0 ≤ K →
  (K = 0 →
   add_per_vehicle_break_nodes Client_check ProblemData_check data K
     depot_idx make_required zero_travel break_service break_tw
   = Ok (data, [])) ∧
  ∀ new_data break_indices,
    add_per_vehicle_break_nodes Client_check ProblemData_check data K
      depot_idx make_required zero_travel break_service break_tw
    = Ok (new_data, break_indices) →
    ∃ added,
      clients new_data = clients data ++ added ∧
      length added = Z.to_nat K ∧
      num_locations new_data = (num_locations data + Z.to_nat K)%nat ∧
      length break_indices = Z.to_nat K ∧
      (∀ i : nat, Z.of_nat i < K →
         break_indices !! i
         = Some (Z.of_nat (num_depots data) + Z.of_nat (num_clients data)
                 + Z.of_nat i)) ∧
      (K = 0 → new_data = data ∧ break_indices = []).
Proof.
  intros HK.
  assert (K = 0 →
          add_per_vehicle_break_nodes Client_check ProblemData_check data K
            depot_idx make_required zero_travel break_service break_tw
          = Ok (data, [])) as Hnoop.
  { intros ->. done. }
  split; [exact Hnoop|].
  intros new_data break_indices Hrun.
  destruct (decide (K = 0)) as [HK0|HK0].
  - rewrite (Hnoop HK0) in Hrun. injection Hrun as <- <-. subst K.
    exists []. rewrite app_nil_r. split_and!; try done; lia.
  - assert (0 < K) as HK' by lia.
    destruct (add_per_vehicle_break_nodes_inv _ _ _ _ _ _ _ _ _ _ _ HK' Hrun)
      as (depot & dists & durs & _ & _ & _ & -> & -> & _).
    eexists. simpl. split_and!.
    + done.
    + by rewrite length_fmap, length_seq.
    + unfold num_locations, num_depots, num_clients. simpl.
      rewrite length_app, length_fmap, length_seq. lia.
    + by rewrite length_seqZ.
    + intros i Hi. rewrite lookup_seqZ_lt by done.
      unfold num_locations. f_equal. lia.
    + done.
Qed.

Lemma add_per_vehicle_break_nodes_counts_witness :
  ∃ new_data break_indices,
    add_per_vehicle_break_nodes sample_Client_check sample_ProblemData_check
      sample_data 2 0 true false None None
      = Ok (new_data, break_indices) ∧
    num_locations new_data = 4%nat ∧
    break_indices !! 1%nat = Some 3.
Proof.
  destruct (add_per_vehicle_break_nodes sample_Client_check
              sample_ProblemData_check sample_data 2 0 true false None None)
    as [[new_data break_indices]|e] eqn:Hrun; [|by vm_compute in Hrun].
  destruct (add_per_vehicle_break_nodes_counts sample_Client_check
              sample_ProblemData_check sample_data 2 0 true false None None)
    as (_ & Hcounts); [lia|].
  destruct (Hcounts new_data break_indices Hrun)
    as (added & _ & _ & Hn & _ & Hbi & _).
  exists new_data, break_indices. split; [done|].
  split; [exact Hn|]. apply (Hbi 1%nat). lia.
Defined.

(** C6, the claim as stated fails: with no break requested the depot
    index is not looked at, so an index that names no depot raises
    nothing. *)
Lemma add_per_vehicle_break_nodes_skips_depot_check :
  ¬ (∀ Client_check ProblemData_check (data : ProblemData) (K depot_idx : Z)
       (make_required zero_travel : bool)
       (break_service : option Z) (break_tw : option (Z * Z)),
       ¬ (0 ≤ depot_idx < Z.of_nat (num_depots data)) →
       add_per_vehicle_break_nodes Client_check ProblemData_check data K
         depot_idx make_required zero_travel break_service break_tw
       = Raise IndexError).
Proof.
  intros H.
  specialize (H sample_Client_check sample_ProblemData_check
                sample_data 0 5 true true None None).
  assert (¬ (0 ≤ 5 < Z.of_nat (num_depots sample_data))) as Hbad
    by (unfold num_depots; simpl; lia).
  specialize (H Hbad). discriminate H.
Qed.

(** C6, amended: when at least one break is requested, a depot index
    outside [0, num_depots) makes [add_per_vehicle_break_nodes] raise
    [IndexError], whatever the other arguments and the instance are;
    when no break is requested ([num_breaks ≤ 0]) it returns the
    instance and the empty list without looking at the depot index; and
    the function checks nothing else itself: on a well-formed instance
    with a valid depot index and at least one break, any exception of
    the call is one that the constructor of [Client] raises on the
    arguments of a break client or that [data.replace] raises on the
    extended client list and matrices, and where those two accept what
    they are given the call returns. *)
Theorem add_per_vehicle_break_nodes_depot_check Client_check
    ProblemData_check (data : ProblemData)
    (K depot_idx : Z) (make_required zero_travel : bool)
    (break_service : option Z) (break_tw : option (Z * Z)) :
  (0 < K → ¬ (0 ≤ depot_idx < Z.of_nat (num_depots data)) →
   add_per_vehicle_break_nodes Client_check ProblemData_check data K
     depot_idx make_required zero_travel break_service break_tw
   = Raise IndexError) ∧
  (K ≤ 0 →
   add_per_vehicle_break_nodes Client_check ProblemData_check data K
     depot_idx make_required zero_travel break_service break_tw
   = Ok (data, [])) ∧
  (wf_data data → 0 < K → 0 ≤ depot_idx < Z.of_nat (num_depots data) →
   (∀ e,
      add_per_vehicle_break_nodes Client_check ProblemData_check data K
        depot_idx make_required zero_travel break_service break_tw
      = Raise e →
      (∃ depot (i : nat),
         depots data !! Z.to_nat depot_idx = Some depot ∧ Z.of_nat i < K ∧
         Client_check
           (break_client depot
              (default (Depot.service_duration depot) break_service)
              (from_option fst 660 break_tw)
              (from_option snd 840 break_tw) make_required i) = Some e) ∨
      (∃ depot dists durs,
         depots data !! Z.to_nat depot_idx = Some depot ∧
         ProblemData_check
           (with_clients_matrices data
              (clients data ++
                 (break_client depot
                    (default (Depot.service_duration depot) break_service)
                    (from_option fst 660 break_tw)
                    (from_option snd 840 break_tw)
                    make_required <$> seq 0 (Z.to_nat K)))
              dists durs) = Some e)) ∧
   ((∀ c, Client_check c = None) → (∀ d, ProblemData_check d = None) →
    ∃ r, add_per_vehicle_break_nodes Client_check ProblemData_check data K
           depot_idx make_required zero_travel break_service break_tw
         = Ok r)).
Proof.
  split_and!.
  - intros HK Hbad. unfold add_per_vehicle_break_nodes.
    rewrite bool_decide_eq_false_2 by lia.
    rewrite bool_decide_eq_true_2; [done|].
    unfold num_depots in Hbad. lia.
  - intros HK. unfold add_per_vehicle_break_nodes.
    by rewrite bool_decide_eq_true_2.
  - intros Hwf HK Hidx.
    assert (∀ e,
              add_per_vehicle_break_nodes Client_check ProblemData_check
                data K depot_idx make_required zero_travel break_service
                break_tw = Raise e →
              (∃ depot (i : nat),
                 depots data !! Z.to_nat depot_idx = Some depot ∧
                 Z.of_nat i < K ∧
                 Client_check
                   (break_client depot
                      (default (Depot.service_duration depot) break_service)
                      (from_option fst 660 break_tw)
                      (from_option snd 840 break_tw) make_required i)
                 = Some e) ∨
              (∃ depot dists durs,
                 depots data !! Z.to_nat depot_idx = Some depot ∧
                 ProblemData_check
                   (with_clients_matrices data
                      (clients data ++
                         (break_client depot
                            (default (Depot.service_duration depot)
                               break_service)
                            (from_option fst 660 break_tw)
                            (from_option snd 840 break_tw)
                            make_required <$> seq 0 (Z.to_nat K)))
                      dists durs) = Some e)) as Hraise.
    { intros e. rewrite add_per_vehicle_break_nodes_unfold by done.
      unfold num_depots in Hidx.
      rewrite bool_decide_eq_false_2 by lia.
      destruct (lookup_lt_is_Some_2 (depots data) (Z.to_nat depot_idx))
        as [depot Hdepot]; [lia|].
      rewrite Hdepot. simpl.
      destruct (make_break_clients _ _ _ _ _ _ _) as [cs|e'] eqn:Hcs; simpl.
      - apply make_break_clients_Ok in Hcs as [-> _].
        destruct (expand_profiles_ok data zero_travel Hwf
                    (num_locations data + Z.to_nat K) 0 (num_profiles data))
          as (dists & durs & -> & _); try done; try lia.
        { apply lookup_lt_Some in Hdepot.
          unfold num_locations, num_depots. lia. }
        simpl. unfold replace_clients_matrices, ProblemData_new.
        destruct (ProblemData_check _) as [e'|] eqn:Hpd; simpl; [|intros [=]].
        intros [= <-]. right. by exists depot, dists, durs.
      - intros [= <-]. left.
        apply make_break_clients_Raise in Hcs as (i & Hi & Hci).
        apply elem_of_seq in Hi. exists depot, i. split_and!; [done|lia|done]. }
    split; [exact Hraise|].
    intros HC HP.
    destruct (add_per_vehicle_break_nodes Client_check ProblemData_check
                data K depot_idx make_required zero_travel break_service
                break_tw) as [r|e] eqn:Hrun; [by eexists|].
    destruct (Hraise e eq_refl)
      as [(depot & i & _ & _ & Hc)|(depot & dists & durs & _ & Hd)].
    + by rewrite HC in Hc.
    + by rewrite HP in Hd.
Qed.

Lemma add_per_vehicle_break_nodes_depot_check_witness :
  add_per_vehicle_break_nodes sample_Client_check sample_ProblemData_check
    sample_data 2 1 true true None None = Raise IndexError ∧
  add_per_vehicle_break_nodes sample_Client_check sample_ProblemData_check
    sample_data 0 1 true true None None = Ok (sample_data, []) ∧
  ((∃ depot (i : nat),
      depots sample_data !! 0%nat = Some depot ∧ Z.of_nat i < 2 ∧
      sample_Client_check
        (break_client depot (Depot.service_duration depot) 840 660 true i)
      = Some ValueError) ∨
   (∃ depot dists durs,
      depots sample_data !! 0%nat = Some depot ∧
      sample_ProblemData_check
        (with_clients_matrices sample_data
           (clients sample_data ++
              (break_client depot (Depot.service_duration depot) 840 660 true
                 <$> seq 0 2))
           dists durs) = Some ValueError)).
Proof.
  destruct (add_per_vehicle_break_nodes_depot_check sample_Client_check
              sample_ProblemData_check sample_data 2 1 true true None None)
    as (Hraise & _ & _).
  destruct (add_per_vehicle_break_nodes_depot_check sample_Client_check
              sample_ProblemData_check sample_data 0 1 true true None None)
    as (_ & Hskip & _).
  destruct (add_per_vehicle_break_nodes_depot_check sample_Client_check
              sample_ProblemData_check sample_data 2 0 true true None
              (Some (840, 660))) as (_ & _ & Hother).
  split_and!.
  - apply Hraise; [lia | unfold num_depots; simpl; lia].
  - apply Hskip. lia.
  - destruct Hother as [Hother _];
      [exact sample_data_wf | lia | unfold num_depots; simpl; lia |].
    apply (Hother ValueError). by vm_compute.
Defined.

(** Each matrix of the returned instance is the expansion of the matrix
    of the same profile and kind. *)
Lemma add_per_vehicle_break_nodes_expands Client_check ProblemData_check
    (data : ProblemData) (K : Z)
    (depot_idx : Z) (make_required zero_travel : bool)
    (break_service : option Z) (break_tw : option (Z * Z))
    (new_data : ProblemData) (break_indices : list Z) :
  wf_data data → 0 < K →
  add_per_vehicle_break_nodes Client_check ProblemData_check data K
    depot_idx make_required zero_travel break_service break_tw
  = Ok (new_data, break_indices) →
  num_locations new_data = (num_locations data + Z.to_nat K)%nat ∧
  (0 < num_locations data)%nat ∧
  ∀ kind,
    length (matrices_of kind new_data) = length (matrices_of kind data) ∧
    ∀ p M, matrices_of kind data !! p = Some M →
      has_shape (num_locations data) (num_locations data) M ∧
      ∃ M', matrices_of kind new_data !! p = Some M' ∧
        tabulates (num_locations new_data)
          (expanded_entry zero_travel (num_locations data) M) M'.
Proof.
  intros Hwf HK Hrun.
  destruct (add_per_vehicle_break_nodes_returns _ _ _ _ _ _ _ _ _ _ _
              Hwf HK Hrun)
    as (depot & dists & durs & _ & Hdepot & -> & _ & Hds & Hus & _).
  assert (num_locations
            (with_clients_matrices data
               (clients data ++
                  (break_client depot
                     (default (Depot.service_duration depot) break_service)
                     (from_option fst 660 break_tw)
                     (from_option snd 840 break_tw)
                     make_required <$> seq 0 (Z.to_nat K)))
               dists durs)
          = (num_locations data + Z.to_nat K)%nat) as Hnew.
  { unfold num_locations, num_depots, num_clients. simpl.
    rewrite length_app, length_fmap, length_seq. lia. }
  split; [done|]. split.
  { apply lookup_lt_Some in Hdepot. unfold num_locations, num_depots. lia. }
  rewrite Hnew.
  intros [|]; simpl; (split; [symmetry; by eapply Forall2_length|]).
  - intros p M Hp. split; [by eapply distance_matrix_shape|].
    by apply (Forall2_lookup_l _ _ _ _ _ Hds Hp).
  - intros p M Hp. split; [by eapply duration_matrix_shape|].
    by apply (Forall2_lookup_l _ _ _ _ _ Hus Hp).
Qed.

(** C7: with [K ≥ 1], on a well-formed instance, for every profile and
    for the distance as for the duration matrix [M'] of the instance
    that [add_per_vehicle_break_nodes] returns, built from the old
    matrix [M]: the top-left block of [M'] is [M] (off the diagonal,
    and on it too when the diagonal of [M] is zero); with [zero_travel]
    on, every entry off the diagonal in a new row or a new column is
    zero; with [zero_travel] off, a new row holds row 0 of [M] over the
    old columns and a new column holds column 0 of [M] over the old
    rows; and in both cases the diagonal of [M'] is zero. *)
Theorem add_per_vehicle_break_nodes_matrices Client_check ProblemData_check
    (data : ProblemData) (K : Z)
    (depot_idx : Z) (make_required zero_travel : bool)
    (break_service : option Z) (break_tw : option (Z * Z))
    (new_data : ProblemData) (break_indices : list Z) :
  wf_data data → 1 ≤ K →
  add_per_vehicle_break_nodes Client_check ProblemData_check data K
    depot_idx make_required zero_travel break_service break_tw
  = Ok (new_data, break_indices) →
  let old := num_locations data in
  let new := (old + Z.to_nat K)%nat in
  num_locations new_data = new ∧
  ∀ kind p M, matrices_of kind data !! p = Some M →
    ∃ M', matrices_of kind new_data !! p = Some M' ∧
      (∀ i j, (i < old)%nat → (j < old)%nat → i ≠ j →
         entry M' i j = entry M i j) ∧
      ((∀ i, (i < old)%nat → entry M i i = Some 0) →
       ∀ i j, (i < old)%nat → (j < old)%nat →
         entry M' i j = entry M i j) ∧
      (zero_travel = true →
       ∀ i j, (i < new)%nat → (j < new)%nat → (old ≤ i ∨ old ≤ j)%nat →
         i ≠ j → entry M' i j = Some 0) ∧
      (zero_travel = false →
       ∀ i j, (old ≤ i < new)%nat → (j < old)%nat →
         entry M' i j = entry M 0 j) ∧
      (zero_travel = false →
       ∀ i j, (i < old)%nat → (old ≤ j < new)%nat →
         entry M' i j = entry M i 0) ∧
      (∀ i, (i < new)%nat → entry M' i i = Some 0).
Proof.
  intros Hwf HK Hrun. assert (0 < K) as HK' by lia.
  destruct (add_per_vehicle_break_nodes_expands _ _ _ _ _ _ _ _ _ _ _
              Hwf HK' Hrun) as (Hnew & Hpos & Hmat).
  intros old new. split; [done|]. intros kind p M Hp.
  destruct (Hmat kind) as (_ & Hkind).
  destruct (Hkind p M Hp) as (HM & M' & Hp' & _ & He).
  exists M'. split; [done|]. subst old new. rewrite Hnew in *.
  assert (∀ i j, (i < num_locations data)%nat → (j < num_locations data)%nat →
            Some (default 0 (entry M i j)) = entry M i j) as Hdef.
  { intros i j Hi Hj.
    by destruct (entry_is_Some _ _ M i j HM Hi Hj) as [x ->]. }
  split_and!.
  - intros i j Hi Hj Hij. rewrite He by lia. unfold expanded_entry.
    rewrite decide_False, decide_True by done. by apply Hdef.
  - intros Hdiag i j Hi Hj. rewrite He by lia. unfold expanded_entry.
    destruct (decide (i = j)) as [<-|Hij]; [by rewrite Hdiag|].
    rewrite decide_True by done. by apply Hdef.
  - intros -> i j Hi Hj Hor Hij. rewrite He by lia. unfold expanded_entry.
    rewrite decide_False by done. by rewrite decide_False by lia.
  - intros -> i j Hi Hj. rewrite He by lia. unfold expanded_entry.
    rewrite decide_False, decide_False, decide_True by lia.
    apply Hdef; lia.
  - intros -> i j Hi Hj. rewrite He by lia. unfold expanded_entry.
    rewrite decide_False, decide_False, decide_False, decide_True by lia.
    apply Hdef; lia.
  - intros i Hi. rewrite He by lia. unfold expanded_entry.
    by rewrite decide_True.
Qed.

Lemma add_per_vehicle_break_nodes_matrices_witness :
  ∃ new_data break_indices,
    add_per_vehicle_break_nodes sample_Client_check sample_ProblemData_check
      sample_data 2 0 true false None None
      = Ok (new_data, break_indices) ∧
    ∃ M', distance_matrices new_data !! 0%nat = Some M' ∧
      entry M' 3 1 = Some 5 ∧ entry M' 1 2 = Some 6 ∧ entry M' 2 2 = Some 0.
Proof.
  destruct (add_per_vehicle_break_nodes sample_Client_check
              sample_ProblemData_check sample_data 2 0 true false None None)
    as [[new_data break_indices]|e] eqn:Hrun; [|by vm_compute in Hrun].
  destruct (add_per_vehicle_break_nodes_matrices sample_Client_check
              sample_ProblemData_check sample_data 2 0 true false None None
              new_data break_indices sample_data_wf ltac:(lia) Hrun)
    as (Hn & Hmat).
  exists new_data, break_indices. split; [done|].
  destruct (Hmat Distance 0%nat [[0; 5]; [6; 0]] eq_refl)
    as (M' & HM' & _ & _ & _ & Hrow & Hcol & Hdiag).
  exists M'. split; [exact HM'|]. split_and!.
  - apply (Hrow eq_refl 3%nat 1%nat);
      unfold num_locations, num_depots, num_clients; simpl; lia.
  - apply (Hcol eq_refl 1%nat 2%nat);
      unfold num_locations, num_depots, num_clients; simpl; lia.
  - apply (Hdiag 2%nat).
    unfold num_locations, num_depots, num_clients. simpl. lia.
Defined.

(** C8: with [K ≥ 1], in the instance a call of
    [add_per_vehicle_break_nodes] returns, the [i]-th appended client
    has the coordinates of the reference depot; its delivery and its
    pickup vector are [[0]], which is zero in every load dimension of
    the returned instance (an instance whose clients all have [n] load
    entries has [n = 1] here); its service duration is the override or
    else that of the depot, its time window the override or else
    [(660, 840)], its [required] flag as passed, release time and
    prize zero, no group, and the name [break_i]; these names are
    pairwise distinct. *)
Theorem add_per_vehicle_break_nodes_clients Client_check ProblemData_check
    (data : ProblemData) (K : Z)
    (depot_idx : Z) (make_required zero_travel : bool)
    (break_service : option Z) (break_tw : option (Z * Z))
    (new_data : ProblemData) (break_indices : list Z) :
  1 ≤ K →
  add_per_vehicle_break_nodes Client_check ProblemData_check data K
    depot_idx make_required zero_travel break_service break_tw
  = Ok (new_data, break_indices) →
  ∃ depot,
    depots data !! Z.to_nat depot_idx = Some depot ∧
    (∀ i : nat, Z.of_nat i < K →
       ∃ c, clients new_data !! (num_clients data + i)%nat = Some c ∧
         Client.x c = Depot.x depot ∧
         Client.y c = Depot.y depot ∧
         Client.delivery c = [0] ∧
         Client.pickup c = [0] ∧
         (∀ n, load_dimensions new_data n →
            n = 1%nat ∧
            ∀ k, (k < n)%nat →
              Client.delivery c !! k = Some 0 ∧
              Client.pickup c !! k = Some 0) ∧
         Client.service_duration c
           = match break_service with
             | Some s => s
             | None => Depot.service_duration depot
             end ∧
         (Client.tw_early c, Client.tw_late c)
           = match break_tw with
             | Some tw => tw
             | None => (660, 840)
             end ∧
         Client.required c = make_required ∧
         Client.release_time c = 0 ∧
         Client.prize c = 0 ∧
         Client.group c = None ∧
         Client.name c = "break_" +:+ pretty i) ∧
    NoDup (Client.name <$> drop (num_clients data) (clients new_data)).
Proof.
  intros HK Hrun. assert (0 < K) as HK' by lia.
  destruct (add_per_vehicle_break_nodes_inv _ _ _ _ _ _ _ _ _ _ _ HK' Hrun)
    as (depot & dists & durs & _ & Hdepot & _ & -> & _ & _ & _).
  exists depot. split; [done|]. simpl. split.
  - intros i Hi.
    assert ((clients data ++
               (break_client depot
                  (default (Depot.service_duration depot) break_service)
                  (from_option fst 660 break_tw)
                  (from_option snd 840 break_tw)
                  make_required <$> seq 0 (Z.to_nat K)))
              !! (num_clients data + i)%nat
            = Some (break_client depot
                      (default (Depot.service_duration depot) break_service)
                      (from_option fst 660 break_tw)
                      (from_option snd 840 break_tw) make_required i))
      as Hlook.
    { rewrite lookup_app_r by (unfold num_clients; lia).
      replace (num_clients data + i - length (clients data))%nat with i
        by (unfold num_clients; lia).
      by rewrite list_lookup_fmap, lookup_seq_lt by lia. }
    eexists. split; [exact Hlook|].
    simpl. split_and!; try done.
    + intros n [Hcl _]. simpl in Hcl.
      pose proof (Forall_lookup_1 _ _ _ _ Hcl Hlook) as [Hn _].
      simpl in Hn. subst n. split; [done|].
      intros k Hk. by replace k with 0%nat by lia.
    + by destruct break_tw as [[??]|].
  - unfold num_clients. rewrite drop_app_length, <- list_fmap_compose.
    apply (NoDup_fmap_2 (λ i : nat, "break_" +:+ pretty i)), NoDup_seq.
Qed.

Lemma add_per_vehicle_break_nodes_clients_witness :
  ∃ new_data break_indices c,
    add_per_vehicle_break_nodes sample_Client_check sample_ProblemData_check
      sample_data 2 0 false true (Some 30) None
      = Ok (new_data, break_indices) ∧
    clients new_data !! 2%nat = Some c ∧
    Client.x c = 1 ∧
    Client.delivery c = [0] ∧
    Client.service_duration c = 30 ∧
    (Client.tw_early c, Client.tw_late c) = (660, 840) ∧
    Client.name c = "break_1".
Proof.
  destruct (add_per_vehicle_break_nodes sample_Client_check
              sample_ProblemData_check sample_data 2 0 false true (Some 30)
              None)
    as [[new_data break_indices]|e] eqn:Hrun; [|by vm_compute in Hrun].
  destruct (add_per_vehicle_break_nodes_clients sample_Client_check
              sample_ProblemData_check sample_data 2 0 false true (Some 30)
              None new_data break_indices ltac:(lia) Hrun)
    as (depot & Hdepot & Hc & _).
  destruct (Hc 1%nat) as (c & Hlook & Hx & _ & Hdel & _ & _ & Hs & Htw & _ & _
                          & _ & _ & Hname); [lia|].
  exists new_data, break_indices, c.
  injection Hdepot as <-.
  split_and!; [done|exact Hlook|exact Hx|exact Hdel|exact Hs|exact Htw
               |exact Hname].
Defined.

(** ** Building the profile of one vehicle *)

Section profile_facts.
Variable MAX_VALUE : Z.
Variables (old new : nat).
Hypothesis Hold : (0 < old)%nat.
Hypothesis Hnew : (old ≤ new)%nat.

(** [M[b, :] = MAX_VALUE; M[:, b] = MAX_VALUE] *)
Lemma forbid_one_ok (b : nat) (f : nat → nat → Z) (M : Matrix) :
  (b < new)%nat → tabulates new f M →
  ∃ M1 M2, set_row b MAX_VALUE M = Ok M1 ∧ set_col b MAX_VALUE M1 = Ok M2 ∧
    tabulates new (λ i j, if decide (i = b ∨ j = b) then MAX_VALUE
                          else f i j) M2.
Proof.
  intros Hb [Hs He].
  destruct (set_row_ok new new M b MAX_VALUE Hs Hb) as (M1 & H1 & Hs1 & He1).
  destruct (set_col_ok new new M1 b MAX_VALUE Hs1) as (M2 & H2 & Hs2 & He2);
    [lia|done|].
  exists M1, M2. split; [done|]. split; [done|]. split; [done|].
  intros i j Hi Hj. rewrite He2, He1, He by done. simpl. f_equal.
  repeat case_decide; try done; lia.
Qed.

Lemma forbid_break_ok (assigned b : nat) (fD fU : nat → nat → Z)
    (D U : Matrix) :
  (b < new)%nat → tabulates new fD D → tabulates new fU U →
  ∃ D' U', forbid_break MAX_VALUE assigned (Ok (D, U)) b = Ok (D', U') ∧
    tabulates new (λ i j, if decide ((i = b ∨ j = b) ∧ b ≠ assigned)
                          then MAX_VALUE else fD i j) D' ∧
    tabulates new (λ i j, if decide ((i = b ∨ j = b) ∧ b ≠ assigned)
                          then MAX_VALUE else fU i j) U'.
Proof.
  intros Hb HD HU. unfold forbid_break. simpl.
  case_bool_decide as Hba.
  - exists D, U. split; [done|].
    split; (eapply tabulates_ext; [|eassumption]);
      intros i j _ _; simpl; by rewrite decide_False by tauto.
  - destruct (forbid_one_ok b fD D Hb HD) as (D1 & D2 & -> & HD2 & HtD).
    simpl. rewrite HD2. simpl.
    destruct (forbid_one_ok b fU U Hb HU) as (U1 & U2 & -> & HU2 & HtU).
    simpl. rewrite HU2. simpl.
    exists D2, U2. split; [done|].
    split; (eapply tabulates_ext; [|eassumption]);
      intros i j _ _; simpl; repeat case_decide; try done; tauto.
Qed.

Lemma forbid_loop_ok (assigned : nat) (bs : list nat) :
  Forall (λ b, b < new)%nat bs →
  ∀ (fD fU : nat → nat → Z) (D U : Matrix),
    tabulates new fD D → tabulates new fU U →
    ∃ D' U', foldl (forbid_break MAX_VALUE assigned) (Ok (D, U)) bs
             = Ok (D', U') ∧
      tabulates new (λ i j, if decide ((i ∈ bs ∧ i ≠ assigned) ∨
                                       (j ∈ bs ∧ j ≠ assigned))
                            then MAX_VALUE else fD i j) D' ∧
      tabulates new (λ i j, if decide ((i ∈ bs ∧ i ≠ assigned) ∨
                                       (j ∈ bs ∧ j ≠ assigned))
                            then MAX_VALUE else fU i j) U'.
Proof.
  induction 1 as [|b bs Hb _ IH]; intros fD fU D U HD HU.
  - exists D, U. split; [done|].
    split; (eapply tabulates_ext; [|eassumption]);
      by intros i j _ _.
  - cbn [foldl].
    destruct (forbid_break_ok assigned b fD fU D U Hb HD HU)
      as (D1 & U1 & -> & HD1 & HU1).
    destruct (IH _ _ D1 U1 HD1 HU1) as (D' & U' & -> & HD' & HU').
    exists D', U'. split; [done|].
    split; (eapply tabulates_ext; [|eassumption]);
      intros i j _ _; simpl; repeat case_decide; try done;
      exfalso; rewrite !elem_of_cons in *; intuition congruence.
Qed.

Lemma vehicle_profile_ok (num_depots veh : nat) (fD fU : nat → nat → Z)
    (base_dist base_dur : Matrix) :
  tabulates new fD base_dist → tabulates new fU base_dur →
  ∃ dist dur,
    vehicle_profile MAX_VALUE base_dist base_dur num_depots old new veh
    = Ok (dist, dur) ∧
    tabulates new (vehicle_entry MAX_VALUE old veh fD) dist ∧
    tabulates new (vehicle_entry MAX_VALUE old veh fU) dur.
Proof.
  intros HD HU. unfold vehicle_profile.
  rewrite bool_decide_eq_false_2
    by (destruct HD as [HsD _]; rewrite (has_shape_nrows _ _ _ HsD); tauto).
  simpl.
  destruct (forbid_loop_ok (old + veh) (seq old (new - old)))
    with (fD := fD) (fU := fU) (D := base_dist) (U := base_dur)
    as (D' & U' & -> & HD' & HU'); try done.
  { apply Forall_forall. intros b Hb. apply elem_of_seq in Hb. lia. }
  simpl. do 2 eexists. split; [done|].
  split; (eapply tabulates_ext; [|by apply tabulates_fill_diagonal]);
    intros i j Hi Hj; unfold vehicle_entry; simpl;
    repeat case_decide; try done; exfalso;
    rewrite !elem_of_seq in *; lia.
Qed.

Lemma vehicle_profiles_ok (num_depots : nat) (fD fU : nat → nat → Z)
    (base_dist base_dur : Matrix) (vehs : list nat) :
  tabulates new fD base_dist → tabulates new fU base_dur →
  ∃ dist_mats dur_mats,
    vehicle_profiles MAX_VALUE base_dist base_dur num_depots old new vehs
    = Ok (dist_mats, dur_mats) ∧
    Forall2 (λ veh M, tabulates new (vehicle_entry MAX_VALUE old veh fD) M)
            vehs dist_mats ∧
    Forall2 (λ veh M, tabulates new (vehicle_entry MAX_VALUE old veh fU) M)
            vehs dur_mats.
Proof.
  intros HD HU. induction vehs as [|veh vehs IH]; simpl.
  - exists [], []. by repeat constructor.
  - destruct (vehicle_profile_ok num_depots veh fD fU base_dist base_dur
                HD HU) as (dist & dur & -> & Hdist & Hdur).
    simpl. destruct IH as (dist_mats & dur_mats & -> & Hds & Hus).
    simpl. exists (dist :: dist_mats), (dur :: dur_mats).
    split; [done|]. split; by constructor.
Qed.
End profile_facts.

(** ** The mask of allowed nodes *)

Lemma mark_all_lookup (idxs : list nat) (mask : list bool) (i : nat) :
  (i < length mask)%nat →
  foldl (λ acc k, <[k := true]> acc) mask idxs !! i
  = if decide (i ∈ idxs) then Some true else mask !! i.
Proof.
  revert mask. induction idxs as [|k idxs IH]; intros mask Hi; simpl.
  - done.
  - rewrite IH by (by rewrite length_insert).
    destruct (decide (i = k)) as [->|Hik].
    + rewrite list_lookup_insert_eq by done.
      rewrite (decide_True (P := k ∈ k :: idxs)) by apply list_elem_of_here.
      by case_decide.
    + rewrite list_lookup_insert_ne by done.
      repeat case_decide; try done; exfalso;
        rewrite !elem_of_cons in *; intuition congruence.
Qed.

Lemma allowed_mask_lookup (new num_depots old assigned i : nat) :
  (num_depots ≤ old)%nat → (i < new)%nat → (assigned < new)%nat →
  allowed_mask new num_depots old assigned !! i
  = Some (bool_decide (i < old ∨ i = assigned)%nat).
Proof.
  intros Hnd Hi Ha. unfold allowed_mask.
  assert (length (imap (λ (k : nat) (a : bool),
                          if bool_decide (k < num_depots)%nat then true else a)
                       (replicate new false)) = new) as Hlen.
  { by rewrite length_imap, length_replicate. }
  destruct (decide (i = assigned)) as [->|Hia].
  - rewrite list_lookup_insert_eq.
    + by rewrite bool_decide_eq_true_2 by (by right).
    + clear Hi.
      induction (seq num_depots (old - num_depots)) as [|k ks IH]
        using rev_ind; simpl; [by rewrite Hlen|].
      by rewrite foldl_snoc, length_insert.
  - rewrite list_lookup_insert_ne by done.
    rewrite mark_all_lookup by (by rewrite Hlen).
    rewrite list_lookup_imap, lookup_replicate_2 by done. simpl.
    repeat case_decide; repeat case_bool_decide; try done; exfalso;
      rewrite ?elem_of_seq in *; lia.
Qed.

(** ** The vehicle types *)

Lemma per_vehicle_types_ok (orig_vtypes : list VehicleType.t)
    (vehs : list nat) :
  orig_vtypes ≠ [] →
  ∃ vts, per_vehicle_types orig_vtypes vehs = Ok vts ∧
    Forall2 (λ veh vt, ∃ parent,
               orig_vtypes !! (veh `mod` length orig_vtypes)%nat = Some parent ∧
               vt = VehicleType.replace parent 1 veh (pretty veh))
            vehs vts.
Proof.
  intros Hne. induction vehs as [|veh vehs IH]; simpl.
  - exists []. by split; [|constructor].
  - assert (length orig_vtypes ≠ 0%nat) as Hlen by (by destruct orig_vtypes).
    rewrite bool_decide_eq_false_2 by done.
    destruct (lookup_lt_is_Some_2 orig_vtypes
                (veh `mod` length orig_vtypes)%nat) as [parent Hparent].
    { by apply Nat.mod_upper_bound. }
    rewrite Hparent. simpl.
    destruct IH as (vts & -> & Hvts). simpl.
    eexists. split; [done|]. constructor; [|done]. by exists parent.
Qed.

Lemma num_vehicles_pos_types (data : ProblemData) :
  (0 < num_vehicles data)%nat → vehicle_types data ≠ [].
Proof. unfold num_vehicles. intros Hnv Hnil. rewrite Hnil in Hnv. simpl in Hnv. lia. Qed.

Lemma num_vehicles_pos_profiles (data : ProblemData) :
  wf_data data → (0 < num_vehicles data)%nat → (0 < num_profiles data)%nat.
Proof.
  intros (_ & _ & _ & Hvt) Hnv.
  apply num_vehicles_pos_types in Hnv.
  destruct (vehicle_types data) as [|vt vts]; [done|].
  inversion Hvt; subst. lia.
Qed.

(** ** The profile builder as a whole *)

(** What a call that returns has gone through, on a well-formed
    instance with at least one vehicle. *)
Lemma add_one_break_per_vehicle_returns Client_check ProblemData_check
    (MAX_VALUE : Z) (data : ProblemData)
    (break_service : Z) (break_tw : Z * Z) (depot_idx : Z)
    (new_data : ProblemData) (break_indices : list Z) :
  wf_data data → (0 < num_vehicles data)%nat →
  add_one_break_per_vehicle Client_check ProblemData_check MAX_VALUE data
    break_service break_tw depot_idx = Ok (new_data, break_indices) →
  ∃ depot dists0 durs0 vts dms ums M0d M0u,
    0 ≤ depot_idx < Z.of_nat (num_depots data) ∧
    depots data !! Z.to_nat depot_idx = Some depot ∧
    distance_matrices data !! 0%nat = Some M0d ∧
    duration_matrices data !! 0%nat = Some M0u ∧
    new_data
    = with_vehicles_matrices
        (with_clients_matrices data
           (clients data ++
              (break_client depot break_service break_tw.1 break_tw.2
                 true <$> seq 0 (num_vehicles data)))
           dists0 durs0)
        vts dms ums ∧
    break_indices = seqZ (Z.of_nat (num_locations data))
                         (Z.of_nat (num_vehicles data)) ∧
    add_per_vehicle_break_nodes Client_check ProblemData_check data
      (Z.of_nat (num_vehicles data)) depot_idx true true
      (Some break_service) (Some break_tw)
    = Ok (with_clients_matrices data
            (clients data ++
               (break_client depot break_service break_tw.1 break_tw.2
                  true <$> seq 0 (num_vehicles data)))
            dists0 durs0,
          break_indices) ∧
    expands true (num_locations data)
      (num_locations data + num_vehicles data)
      (distance_matrices data) dists0 ∧
    expands true (num_locations data)
      (num_locations data + num_vehicles data)
      (duration_matrices data) durs0 ∧
    Forall2 (λ veh M,
               tabulates (num_locations data + num_vehicles data)
                 (vehicle_entry MAX_VALUE (num_locations data) veh
                    (expanded_entry true (num_locations data) M0d)) M)
            (seq 0 (num_vehicles data)) dms ∧
    Forall2 (λ veh M,
               tabulates (num_locations data + num_vehicles data)
                 (vehicle_entry MAX_VALUE (num_locations data) veh
                    (expanded_entry true (num_locations data) M0u)) M)
            (seq 0 (num_vehicles data)) ums ∧
    Forall2 (λ veh vt, ∃ parent,
               vehicle_types data
                 !! (veh `mod` length (vehicle_types data))%nat = Some parent ∧
               vt = VehicleType.replace parent 1 veh (pretty veh))
            (seq 0 (num_vehicles data)) vts ∧
    ProblemData_check new_data = None.
Proof.
  intros Hwf Hnv. unfold add_one_break_per_vehicle.
  rewrite bool_decide_eq_false_2 by lia.
  destruct (add_per_vehicle_break_nodes Client_check ProblemData_check data
              (Z.of_nat (num_vehicles data)) depot_idx true true
              (Some break_service) (Some break_tw))
    as [[nd1 bi1]|e] eqn:Hsyn; simpl; [|intros [=]].
  assert (0 < Z.of_nat (num_vehicles data)) as HK by lia.
  destruct (add_per_vehicle_break_nodes_returns _ _ _ _ _ _ _ _ _ _ _
              Hwf HK Hsyn)
    as (depot & dists0 & durs0 & Hidx & Hdepot & -> & -> & Hds & Hus & _).
  rewrite Nat2Z.id in *. simpl.
  pose proof (num_vehicles_pos_profiles data Hwf Hnv) as Hprof.
  assert (0 < num_locations data)%nat as Hpos.
  { apply lookup_lt_Some in Hdepot. unfold num_locations, num_depots. lia. }
  destruct (lookup_lt_is_Some_2 (distance_matrices data) 0)
    as [M0d HM0d]; [done|].
  destruct (lookup_lt_is_Some_2 (duration_matrices data) 0)
    as [M0u HM0u].
  { destruct Hwf as (-> & _). done. }
  destruct (Forall2_lookup_l _ _ _ _ _ Hds HM0d) as (bD & HbD & HtD).
  destruct (Forall2_lookup_l _ _ _ _ _ Hus HM0u) as (bU & HbU & HtU).
  unfold distance_matrix, duration_matrix. simpl.
  rewrite HbD, HbU. simpl.
  assert (num_locations
            (with_clients_matrices data
               (clients data ++
                  (break_client depot break_service break_tw.1 break_tw.2
                     true <$> seq 0 (num_vehicles data)))
               dists0 durs0)
          = (num_locations data + num_vehicles data)%nat) as ->.
  { unfold num_locations, num_depots, num_clients. simpl.
    rewrite length_app, length_fmap, length_seq. lia. }
  destruct (vehicle_profiles_ok MAX_VALUE (num_locations data)
              (num_locations data + num_vehicles data) Hpos ltac:(lia)
              (num_depots data) _ _ bD bU (seq 0 (num_vehicles data)) HtD HtU)
    as (dms & ums & Hvp & Hdms & Hums).
  unfold num_depots in *. simpl. rewrite Hvp. simpl.
  destruct (per_vehicle_types_ok (vehicle_types data)
              (seq 0 (num_vehicles data)))
    as (vts & -> & Hvts); [by apply num_vehicles_pos_types|].
  simpl. unfold replace_vehicles_matrices, ProblemData_new.
  destruct (ProblemData_check _) as [e|] eqn:Hpd; simpl; [intros [=]|].
  intros [= <- <-].
  exists depot, dists0, durs0, vts, dms, ums, M0d, M0u.
  split_and!; try done; lia.
Qed.

Lemma add_one_break_per_vehicle_facts Client_check ProblemData_check
    (MAX_VALUE : Z) (data : ProblemData)
    (break_service : Z) (break_tw : Z * Z) (depot_idx : Z)
    (new_data : ProblemData) (break_indices : list Z) :
  wf_data data → (0 < num_vehicles data)%nat →
  add_one_break_per_vehicle Client_check ProblemData_check MAX_VALUE data
    break_service break_tw depot_idx = Ok (new_data, break_indices) →
  break_indices = seqZ (Z.of_nat (num_locations data))
                       (Z.of_nat (num_vehicles data)) ∧
  num_locations new_data = (num_locations data + num_vehicles data)%nat ∧
  (0 < num_locations data)%nat ∧
  (∀ kind, ∃ M0,
     matrices_of kind data !! 0%nat = Some M0 ∧
     has_shape (num_locations data) (num_locations data) M0 ∧
     Forall2 (λ veh M,
                tabulates (num_locations data + num_vehicles data)
                  (vehicle_entry MAX_VALUE (num_locations data) veh
                     (expanded_entry true (num_locations data) M0)) M)
             (seq 0 (num_vehicles data)) (matrices_of kind new_data)) ∧
  Forall2 (λ veh vt, ∃ parent,
             vehicle_types data
               !! (veh `mod` length (vehicle_types data))%nat = Some parent ∧
             vt = VehicleType.replace parent 1 veh (pretty veh))
          (seq 0 (num_vehicles data)) (vehicle_types new_data).
Proof.
  intros Hwf Hnv Hrun.
  destruct (add_one_break_per_vehicle_returns _ _ _ _ _ _ _ _ _ Hwf Hnv Hrun)
    as (depot & dists0 & durs0 & vts & dms & ums & M0d & M0u & _ & Hdepot
        & HM0d & HM0u & -> & -> & _ & _ & _ & Hdms & Hums & Hvts & _).
  split; [done|]. split_and!.
  - unfold num_locations, num_depots, num_clients. simpl.
    rewrite length_app, length_fmap, length_seq. lia.
  - apply lookup_lt_Some in Hdepot. unfold num_locations, num_depots. lia.
  - intros [|]; simpl.
    + exists M0d. split; [done|]. split; [|done].
      by eapply distance_matrix_shape.
    + exists M0u. split; [done|]. split; [|done].
      by eapply duration_matrix_shape.
  - done.
Qed.

(** C1, the claim as stated fails: on the sample instance (one depot,
    one client, two vehicles) the node [old_client_count + 1] is the
    break node of vehicle 0, not that of vehicle 1, and vehicle 1
    cannot reach it. *)
Lemma add_one_break_per_vehicle_not_at_client_count :
  ¬ own_break_at sample_Client_check sample_ProblemData_check (2 ^ 44)
      sample_data 30 (660, 840) 0 (num_clients sample_data).
Proof.
  intros H.
  pose proof (H _ _ ltac:(vm_compute; reflexivity) 1%nat Distance) as H1.
  destruct (H1 _ ltac:(vm_compute; lia) eq_refl) as [Hbi _].
  vm_compute in Hbi. discriminate Hbi.
Qed.

(** C1, amended: for every vehicle [v] of a well-formed instance, in
    the distance and the duration matrix that a returning call of
    [add_one_break_per_vehicle] built for [v], the depots and the
    original clients keep the travel costs they have among themselves
    in the matrix of profile 0; the break node of [v] is the node
    [old_num_locations + v] (the number of depots plus the old number
    of clients plus [v]) and is at cost zero from and to each of them;
    the mask of allowed nodes holds exactly those nodes; and every
    other break node has [MAX_VALUE] in its whole row and its whole
    column, the diagonal entry apart. *)
Theorem add_one_break_per_vehicle_profiles Client_check ProblemData_check
    (MAX_VALUE : Z)
    (data : ProblemData) (break_service : Z) (break_tw : Z * Z)
    (depot_idx : Z) (new_data : ProblemData) (break_indices : list Z) :
  wf_data data →
  add_one_break_per_vehicle Client_check ProblemData_check MAX_VALUE data
    break_service break_tw depot_idx = Ok (new_data, break_indices) →
  let old := num_locations data in
  let new := (old + num_vehicles data)%nat in
  num_locations new_data = new ∧
  own_break_at Client_check ProblemData_check MAX_VALUE data break_service
    break_tw depot_idx old ∧
  ∀ veh, (veh < num_vehicles data)%nat →
    let assigned := (old + veh)%nat in
    assigned = (num_depots data + num_clients data + veh)%nat ∧
    break_indices !! veh = Some (Z.of_nat assigned) ∧
    (∀ i, (i < new)%nat →
       allowed_mask new (num_depots data) old assigned !! i
       = Some (bool_decide (i < old ∨ i = assigned)%nat)) ∧
    ∀ kind, ∃ M0 M,
      matrices_of kind data !! 0%nat = Some M0 ∧
      matrices_of kind new_data !! veh = Some M ∧
      (∀ i j, (i < old)%nat → (j < old)%nat → i ≠ j →
         entry M i j = entry M0 i j) ∧
      (∀ i, (i < old)%nat →
         entry M assigned i = Some 0 ∧ entry M i assigned = Some 0) ∧
      (∀ b j, (old ≤ b < new)%nat → b ≠ assigned → (j < new)%nat → j ≠ b →
         entry M b j = Some MAX_VALUE ∧ entry M j b = Some MAX_VALUE).
Proof.
  intros Hwf Hrun old new.
  destruct (decide (num_vehicles data = 0)%nat) as [Hnv0|Hnv0].
  { assert (new_data = data) as ->.
    { unfold add_one_break_per_vehicle in Hrun.
      rewrite bool_decide_eq_true_2 in Hrun by lia. by injection Hrun as <-. }
    split; [subst new old; lia|]. split; [|intros veh Hveh; lia].
    intros nd' bi' _ veh kind M Hveh. lia. }
  assert (0 < num_vehicles data)%nat as Hnv by lia.
  destruct (add_one_break_per_vehicle_facts _ _ _ _ _ _ _ _ _ Hwf Hnv Hrun)
    as (Hbis & Hn & Hpos & Hmat & _).
  split; [exact Hn|].
  assert (∀ nd bi veh kind M,
            add_one_break_per_vehicle Client_check ProblemData_check MAX_VALUE
              data break_service break_tw depot_idx = Ok (nd, bi) →
            (veh < num_vehicles data)%nat →
            matrices_of kind nd !! veh = Some M →
            ∃ M0, matrices_of kind data !! 0%nat = Some M0 ∧
              has_shape old old M0 ∧
              tabulates new
                (vehicle_entry MAX_VALUE old veh (expanded_entry true old M0))
                M) as Htab.
  { intros nd bi veh kind M Hrun' Hveh HM.
    destruct (add_one_break_per_vehicle_facts _ _ _ _ _ _ _ _ _ Hwf Hnv Hrun')
      as (_ & _ & _ & Hmat' & _).
    destruct (Hmat' kind) as (M0 & HM0 & HsM0 & Hall).
    exists M0. split; [done|]. split; [done|].
    destruct (Forall2_lookup_r _ _ _ _ _ Hall HM) as (veh' & Hveh' & Ht).
    apply lookup_seq in Hveh' as [-> _]. exact Ht. }
  assert (∀ veh, (veh < num_vehicles data)%nat →
            seqZ (Z.of_nat old) (Z.of_nat (num_vehicles data)) !! veh
            = Some (Z.of_nat (old + veh))) as Hbi.
  { intros veh Hveh. rewrite lookup_seqZ_lt by lia. f_equal. lia. }
  split.
  { intros nd' bi' Hrun' veh kind M Hveh HM.
    destruct (add_one_break_per_vehicle_facts _ _ _ _ _ _ _ _ _ Hwf Hnv Hrun')
      as (-> & _).
    split; [by apply Hbi|].
    destruct (Htab nd' _ veh kind M Hrun' Hveh HM) as (M0 & _ & _ & _ & He).
    intros i Hi. fold old in Hi. rewrite !He by (subst new; lia).
    unfold vehicle_entry, expanded_entry.
    split; repeat case_decide; try done; lia. }
  intros veh Hveh assigned. split; [done|].
  split; [rewrite Hbis; by apply Hbi|]. split.
  { intros i Hi. apply allowed_mask_lookup; subst old new assigned;
      unfold num_locations in *; lia. }
  intros kind.
  destruct (Hmat kind) as (M0 & HM0 & HsM0 & Hall).
  destruct (Forall2_lookup_l _ _ _ veh veh Hall) as (M & HM & _).
  { apply lookup_seq. lia. }
  destruct (Htab new_data _ veh kind M Hrun Hveh HM)
    as (M0' & HM0' & _ & _ & He).
  rewrite HM0 in HM0'. injection HM0' as <-.
  exists M0, M. split; [done|]. split; [done|]. split_and!.
  - intros i j Hi Hj Hij. rewrite He by (subst new; lia).
    destruct (entry_is_Some _ _ M0 i j HsM0 Hi Hj) as [x Hx].
    rewrite Hx. unfold vehicle_entry, expanded_entry. rewrite Hx.
    repeat case_decide; try done; lia.
  - intros i Hi. rewrite !He by (subst new assigned; lia).
    unfold vehicle_entry, expanded_entry.
    split; repeat case_decide; try done; subst assigned; lia.
  - intros b j Hb Hba Hj Hjb. rewrite !He by (subst new; lia).
    unfold vehicle_entry.
    split; repeat case_decide; try done; subst assigned; lia.
Qed.

Lemma add_one_break_per_vehicle_profiles_witness :
  ∃ new_data break_indices M,
    add_one_break_per_vehicle sample_Client_check sample_ProblemData_check
      (2 ^ 44) sample_data 30 (660, 840) 0
    = Ok (new_data, break_indices) ∧
    break_indices !! 1%nat = Some 3 ∧
    duration_matrices new_data !! 1%nat = Some M ∧
    entry M 0 1 = Some 8 ∧ entry M 3 0 = Some 0 ∧
    entry M 2 1 = Some (2 ^ 44).
Proof.
  destruct (add_one_break_per_vehicle sample_Client_check
              sample_ProblemData_check (2 ^ 44) sample_data 30 (660, 840) 0)
    as [[new_data break_indices]|e] eqn:Hrun; [|by vm_compute in Hrun].
  destruct (add_one_break_per_vehicle_profiles sample_Client_check
              sample_ProblemData_check (2 ^ 44) sample_data 30 (660, 840) 0
              new_data break_indices sample_data_wf Hrun)
    as (_ & _ & Hveh).
  destruct (Hveh 1%nat) as (_ & Hbi & _ & Hkind).
  { unfold num_vehicles. simpl. lia. }
  destruct (Hkind Duration) as (M0 & M & HM0 & HM & Hkeep & Hown & Hother).
  injection HM0 as <-.
  exists new_data, break_indices, M.
  split; [done|]. split; [exact Hbi|]. split; [exact HM|].
  split_and!.
  - apply (Hkeep 0%nat 1%nat);
      unfold num_locations, num_depots, num_clients; simpl; lia.
  - apply (Hown 0%nat).
    unfold num_locations, num_depots, num_clients. simpl. lia.
  - apply (Hother 2%nat 1%nat);
      unfold num_locations, num_depots, num_clients, num_vehicles;
      simpl; lia.
Defined.

Lemma per_vehicle_types_fields (orig_vtypes vts : list VehicleType.t)
    (vehs : list nat) :
  Forall2 (λ veh vt, ∃ parent,
             orig_vtypes !! (veh `mod` length orig_vtypes)%nat = Some parent ∧
             vt = VehicleType.replace parent 1 veh (pretty veh))
          vehs vts →
  VehicleType.profile <$> vts = vehs ∧
  VehicleType.name <$> vts = pretty <$> vehs ∧
  VehicleType.num_available <$> vts = replicate (length vehs) 1%nat.
Proof.
  induction 1 as [|veh vt vehs vts (parent & _ & ->) _ (IH1 & IH2 & IH3)];
    [done|].
  rewrite !fmap_cons, IH1, IH2, IH3. done.
Qed.

(** C3: on a well-formed instance with at least one vehicle, the
    instance a call of [add_one_break_per_vehicle] returns has exactly
    [num_vehicles] vehicle types (and as many vehicles); each has
    [num_available = 1]; their names are pairwise distinct; the type at
    position [v] has profile id [v], so the profile ids are
    [0 .. num_vehicles - 1] in order; and the type at position [v] is a
    clone of the original type at position
    [v mod (number of original types)]: availability, profile and name
    are replaced and every other field is that of the original. *)
Theorem add_one_break_per_vehicle_vehicle_types Client_check
    ProblemData_check (MAX_VALUE : Z)
    (data : ProblemData) (break_service : Z) (break_tw : Z * Z)
    (depot_idx : Z) (new_data : ProblemData) (break_indices : list Z) :
  wf_data data → (1 ≤ num_vehicles data)%nat →
  add_one_break_per_vehicle Client_check ProblemData_check MAX_VALUE data
    break_service break_tw depot_idx = Ok (new_data, break_indices) →
  num_vehicle_types new_data = num_vehicles data ∧
  num_vehicles new_data = num_vehicles data ∧
  Forall (λ vt, VehicleType.num_available vt = 1%nat)
         (vehicle_types new_data) ∧
  NoDup (VehicleType.name <$> vehicle_types new_data) ∧
  VehicleType.profile <$> vehicle_types new_data
    = seq 0 (num_vehicles data) ∧
  ∀ veh, (veh < num_vehicles data)%nat →
    ∃ parent vt,
      vehicle_types data !! (veh `mod` num_vehicle_types data)%nat
        = Some parent ∧
      vehicle_types new_data !! veh = Some vt ∧
      VehicleType.num_available vt = 1%nat ∧
      VehicleType.profile vt = veh ∧
      VehicleType.name vt = pretty veh ∧
      VehicleType.capacity vt = VehicleType.capacity parent ∧
      VehicleType.start_depot vt = VehicleType.start_depot parent ∧
      VehicleType.end_depot vt = VehicleType.end_depot parent ∧
      VehicleType.fixed_cost vt = VehicleType.fixed_cost parent ∧
      VehicleType.tw_early vt = VehicleType.tw_early parent ∧
      VehicleType.tw_late vt = VehicleType.tw_late parent ∧
      VehicleType.max_duration vt = VehicleType.max_duration parent ∧
      VehicleType.max_distance vt = VehicleType.max_distance parent ∧
      VehicleType.unit_distance_cost vt
        = VehicleType.unit_distance_cost parent ∧
      VehicleType.unit_duration_cost vt
        = VehicleType.unit_duration_cost parent.
Proof.
  intros Hwf Hnv Hrun.
  destruct (add_one_break_per_vehicle_facts _ _ _ _ _ _ _ _ _ Hwf
              ltac:(lia) Hrun) as (_ & _ & _ & _ & Hvts).
  destruct (per_vehicle_types_fields _ _ _ Hvts) as (Hprof & Hname & Havail).
  rewrite length_seq in Havail.
  split_and!.
  - unfold num_vehicle_types.
    by rewrite <- (Forall2_length _ _ _ Hvts), length_seq.
  - unfold num_vehicles at 1. rewrite Havail.
    clear. induction (num_vehicles data) as [|n IH]; simpl; [done|].
    by rewrite IH.
  - apply (Forall_fmap VehicleType.num_available (λ n, n = 1%nat)).
    rewrite Havail. by apply Forall_replicate.
  - rewrite Hname. apply (NoDup_fmap_2 pretty), NoDup_seq.
  - done.
  - intros veh Hveh.
    destruct (Forall2_lookup_l _ _ _ veh veh Hvts) as (vt & Hvt & parent
                                                       & Hparent & ->).
    { apply lookup_seq. lia. }
    exists parent. eexists. by split_and!.
Qed.

Lemma add_one_break_per_vehicle_vehicle_types_witness :
  ∃ new_data break_indices vt,
    add_one_break_per_vehicle sample_Client_check sample_ProblemData_check
      (2 ^ 44) sample_data 30 (660, 840) 0
    = Ok (new_data, break_indices) ∧
    num_vehicle_types new_data = 2%nat ∧
    VehicleType.profile <$> vehicle_types new_data = [0; 1]%nat ∧
    vehicle_types new_data !! 1%nat = Some vt ∧
    VehicleType.name vt = "1" ∧
    VehicleType.capacity vt = [10].
Proof.
  destruct (add_one_break_per_vehicle sample_Client_check
              sample_ProblemData_check (2 ^ 44) sample_data 30 (660, 840) 0)
    as [[new_data break_indices]|e] eqn:Hrun; [|by vm_compute in Hrun].
  destruct (add_one_break_per_vehicle_vehicle_types sample_Client_check
              sample_ProblemData_check (2 ^ 44) sample_data 30 (660, 840) 0
              new_data break_indices sample_data_wf)
    as (Hn & _ & _ & _ & Hprof & Hveh); [|exact Hrun|].
  { unfold num_vehicles. simpl. lia. }
  destruct (Hveh 1%nat) as (parent & vt & Hparent & Hvt & _ & _ & Hname
                            & Hcap & _).
  { unfold num_vehicles. simpl. lia. }
  injection Hparent as <-.
  exists new_data, break_indices, vt.
  split; [done|]. split; [exact Hn|]. split; [exact Hprof|].
  split; [exact Hvt|]. split; [exact Hname|exact Hcap].
Defined.

Lemma tabulates_expanded_square (zero_travel : bool) (old n : nat)
    (M0 M : Matrix) :
  tabulates n (expanded_entry zero_travel old M0) M →
  square_zero_diagonal n M.
Proof.
  intros [Hs He]. split; [done|]. intros i Hi.
  rewrite He by done. unfold expanded_entry. by rewrite decide_True.
Qed.

Lemma tabulates_vehicle_square (MAX_VALUE : Z) (old veh n : nat)
    (base : nat → nat → Z) (M : Matrix) :
  tabulates n (vehicle_entry MAX_VALUE old veh base) M →
  square_zero_diagonal n M.
Proof.
  intros [Hs He]. split; [done|]. intros i Hi.
  rewrite He by done. unfold vehicle_entry. by rewrite decide_True.
Qed.

(** C5: on a well-formed instance, every distance and duration matrix
    of the instance that a call of [add_per_vehicle_break_nodes]
    returns (for [K ≥ 1], any profile, any flags and overrides) and of
    the instance that a call of [add_one_break_per_vehicle] returns
    (for at least one vehicle, every vehicle's profile) is square, of
    dimension the new number of locations, with zero on its whole
    diagonal.  With [K ≤ 0] no matrix is built: the instance comes back
    as it is. *)
Theorem produced_matrices_square_zero_diagonal Client_check
    ProblemData_check (MAX_VALUE : Z)
    (data : ProblemData) (depot_idx : Z) :
  wf_data data →
  (∀ (K : Z) (make_required zero_travel : bool)
     (break_service : option Z) (break_tw : option (Z * Z))
     new_data break_indices,
     1 ≤ K →
     add_per_vehicle_break_nodes Client_check ProblemData_check data K
       depot_idx make_required zero_travel break_service break_tw
     = Ok (new_data, break_indices) →
     num_locations new_data = (num_locations data + Z.to_nat K)%nat ∧
     num_profiles new_data = num_profiles data ∧
     ∀ kind, Forall (square_zero_diagonal (num_locations new_data))
                    (matrices_of kind new_data)) ∧
  (∀ (K : Z) (make_required zero_travel : bool)
     (break_service : option Z) (break_tw : option (Z * Z)),
     K ≤ 0 →
     add_per_vehicle_break_nodes Client_check ProblemData_check data K
       depot_idx make_required zero_travel break_service break_tw
     = Ok (data, [])) ∧
  (∀ (break_service : Z) (break_tw : Z * Z) new_data break_indices,
     (1 ≤ num_vehicles data)%nat →
     add_one_break_per_vehicle Client_check ProblemData_check MAX_VALUE data
       break_service break_tw depot_idx = Ok (new_data, break_indices) →
     num_locations new_data
       = (num_locations data + num_vehicles data)%nat ∧
     num_profiles new_data = num_vehicles data ∧
     ∀ kind, Forall (square_zero_diagonal (num_locations new_data))
                    (matrices_of kind new_data)).
Proof.
  intros Hwf. split_and!.
  - intros K make_required zero_travel break_service break_tw new_data bi
      HK Hrun.
    assert (0 < K) as HK' by lia.
    destruct (add_per_vehicle_break_nodes_expands _ _ _ _ _ _ _ _ _ _ _
                Hwf HK' Hrun) as (Hn & _ & Hmat).
    split; [done|]. split.
    { by destruct (Hmat Distance) as [? _]. }
    intros kind. destruct (Hmat kind) as (Hlen & Hkind).
    apply Forall_lookup. intros p M' HM'.
    destruct (lookup_lt_is_Some_2 (matrices_of kind data) p) as [M HM].
    { rewrite <- Hlen. by eapply lookup_lt_Some. }
    destruct (Hkind p M HM) as (_ & M'' & HM'' & Ht).
    rewrite HM' in HM''. injection HM'' as <-.
    by eapply tabulates_expanded_square.
  - intros K make_required zero_travel break_service break_tw HK.
    unfold add_per_vehicle_break_nodes. by rewrite bool_decide_eq_true_2.
  - intros break_service break_tw new_data bi Hnv Hrun.
    assert (0 < num_vehicles data)%nat as Hnv' by lia.
    destruct (add_one_break_per_vehicle_facts _ _ _ _ _ _ _ _ _ Hwf Hnv' Hrun)
      as (_ & Hn & _ & Hmat & _).
    split; [done|]. split.
    { destruct (Hmat Distance) as (M0 & _ & _ & Hall). simpl in Hall.
      unfold num_profiles.
      by rewrite <- (Forall2_length _ _ _ Hall), length_seq. }
    intros kind. destruct (Hmat kind) as (M0 & _ & _ & Hall).
    apply Forall_lookup. intros p M HM.
    destruct (Forall2_lookup_r _ _ _ _ _ Hall HM) as (veh & _ & Ht).
    rewrite Hn. by eapply tabulates_vehicle_square.
Qed.

Lemma produced_matrices_square_zero_diagonal_witness :
  (∃ new_data break_indices,
     add_per_vehicle_break_nodes sample_Client_check sample_ProblemData_check
       sample_data 3 0 true false None None
       = Ok (new_data, break_indices) ∧
     Forall (square_zero_diagonal 5) (distance_matrices new_data)) ∧
  (∃ new_data break_indices,
     add_one_break_per_vehicle sample_Client_check sample_ProblemData_check
       (2 ^ 44) sample_data 30 (660, 840) 0
       = Ok (new_data, break_indices) ∧
     Forall (square_zero_diagonal 4) (duration_matrices new_data)).
Proof.
  destruct (produced_matrices_square_zero_diagonal sample_Client_check
              sample_ProblemData_check (2 ^ 44) sample_data 0
              sample_data_wf) as (Hsyn & _ & Hveh).
  split.
  - destruct (add_per_vehicle_break_nodes sample_Client_check
                sample_ProblemData_check sample_data 3 0 true false None None)
      as [[new_data bi]|e] eqn:Hrun; [|by vm_compute in Hrun].
    destruct (Hsyn 3 true false None None new_data bi) as (Hn & _ & Hall);
      [lia|exact Hrun|].
    exists new_data, bi. split; [done|].
    rewrite Hn in Hall. exact (Hall Distance).
  - destruct (add_one_break_per_vehicle sample_Client_check
                sample_ProblemData_check (2 ^ 44) sample_data 30 (660, 840) 0)
      as [[new_data bi]|e] eqn:Hrun; [|by vm_compute in Hrun].
    destruct (Hveh 30 (660, 840) new_data bi) as (Hn & _ & Hall);
      [|exact Hrun|].
    { unfold num_vehicles. simpl. lia. }
    exists new_data, bi. split; [done|].
    rewrite Hn in Hall. exact (Hall Duration).
Defined.

(** * Further properties of the route reconciler *)

Lemma first_unused_first_occurrences (break_indices : list Z)
    (seen used : gset Z) :
  seen ⊆ used →
  first_unused break_indices used
  = first_unused (first_occurrences seen break_indices) used.
Proof.
  unfold first_unused. revert seen.
  induction break_indices as [|b rest IH]; intros seen Hsub; simpl; [done|].
  destruct (decide (b ∈ seen)) as [Hb|Hb].
  - rewrite bool_decide_eq_false_2 by (intros Hn; apply Hn, Hsub, Hb).
    by apply IH.
  - simpl. case_bool_decide as Hu; [done|].
    apply IH. apply union_subseteq. split; [|done].
    by apply singleton_subseteq_l.
Qed.

Lemma first_occurrences_elem (break_indices : list Z) (seen : gset Z)
    (b : Z) :
  b ∈ first_occurrences seen break_indices ↔ b ∈ break_indices ∧ b ∉ seen.
Proof.
  revert seen. induction break_indices as [|c rest IH]; intros seen; simpl.
  - rewrite elem_of_nil. tauto.
  - destruct (decide (c ∈ seen)) as [Hc|Hc].
    + rewrite IH, elem_of_cons. split; [tauto|].
      intros [[->|?] ?]; tauto.
    + rewrite !elem_of_cons, IH, elem_of_union, elem_of_singleton.
      destruct (decide (b = c)) as [->|Hbc]; tauto.
Qed.

Lemma first_occurrences_NoDup (break_indices : list Z) (seen : gset Z) :
  NoDup (first_occurrences seen break_indices).
Proof.
  revert seen. induction break_indices as [|c rest IH]; intros seen; simpl.
  - constructor.
  - destruct (decide (c ∈ seen)); [apply IH|].
    constructor; [|apply IH].
    rewrite first_occurrences_elem, elem_of_union, elem_of_singleton. tauto.
Qed.

Lemma repair_loop_first_occurrences (break_indices : list Z)
    (rs : list route_like) (st : repair_state) :
  foldl (repair_step break_indices) st rs
  = foldl (repair_step (first_occurrences ∅ break_indices)) st rs.
Proof.
  revert st. induction rs as [|r rs IH]; intros st; simpl; [done|].
  rewrite IH. f_equal. unfold repair_step.
  by rewrite (first_unused_first_occurrences break_indices ∅ (used_breaks st))
    by apply empty_subseteq.
Qed.

Lemma repair_closed_form {D : Type} (data : D) (solution : solution_like)
    (break_indices : list Z) :
  NoDup break_indices →
  repair_one_break_per_route data solution break_indices
  = (imap (route_outcome break_indices) (routes_of solution),
     bool_decide (length (routes_of solution) ≤ length break_indices)%nat).
Proof.
  intros Hnd.
  destruct (repair_loop_inv break_indices (routes_of solution) Hnd
              (RepairState [] ∅ true) 0%nat) as (Hf & _ & Ha); [done|].
  unfold repair_one_break_per_route. rewrite Hf, Ha. simpl. f_equal.
  apply bool_decide_ext. lia.
Qed.

(** X1: whatever the list of break indices (repeated entries
    included), [repair_one_break_per_route] behaves as on the list of
    the distinct indices in order of first occurrence: the route at
    position [i] gets the [i]-th distinct index, routes past the last
    distinct index come out as they went in, and the flag is true
    exactly when there are at most as many routes as distinct indices. *)
Theorem repair_one_break_per_route_distinct_indices {D : Type} (data : D)
    (solution : solution_like) (break_indices : list Z) :
  let distinct := first_occurrences ∅ break_indices in
  NoDup distinct ∧
  (∀ b, b ∈ distinct ↔ b ∈ break_indices) ∧
  length distinct = size (list_to_set break_indices : gset Z) ∧
  repair_one_break_per_route data solution break_indices
  = (imap (route_outcome distinct) (routes_of solution),
     bool_decide (length (routes_of solution) ≤ length distinct)%nat).
Proof.
  intros distinct.
  pose proof (first_occurrences_NoDup break_indices ∅) as Hnd.
  assert (∀ b, b ∈ distinct ↔ b ∈ break_indices) as Helem.
  { intros b. subst distinct. rewrite first_occurrences_elem.
    split; [tauto|]. intros Hb. split; [done|]. apply not_elem_of_empty. }
  split_and!; [done|done| |].
  - rewrite <- (size_list_to_set (C := gset Z) distinct) by done.
    f_equal. apply set_eq. intros b. by rewrite !elem_of_list_to_set.
  - rewrite <- (repair_closed_form data solution distinct Hnd).
    unfold repair_one_break_per_route.
    by rewrite repair_loop_first_occurrences.
Qed.

Lemma repair_output_lookup {D : Type} (data : D) (solution : solution_like)
    (break_indices : list Z) (i : nat) :
  (repair_one_break_per_route data solution break_indices).1 !! i
  = route_outcome (first_occurrences ∅ break_indices) i
      <$> routes_of solution !! i.
Proof.
  pose proof (first_occurrences_NoDup break_indices ∅) as Hnd.
  unfold repair_one_break_per_route.
  rewrite repair_loop_first_occurrences.
  pose proof (repair_closed_form data solution _ Hnd) as Hcf.
  unfold repair_one_break_per_route in Hcf.
  injection Hcf as -> _. apply list_lookup_imap.
Qed.

Lemma route_outcome_cases (break_indices : list Z) (i : nat)
    (r : route_like) :
  route_outcome (first_occurrences ∅ break_indices) i r = visits_of r ∨
  ∃ b, b ∈ break_indices ∧
    route_outcome (first_occurrences ∅ break_indices) i r
    = insert_break b (visits_of r).
Proof.
  unfold route_outcome.
  destruct (first_occurrences ∅ break_indices !! i) as [b|] eqn:Hb;
    [right|by left].
  exists b. split; [|done].
  apply list_elem_of_lookup_2 in Hb.
  by apply first_occurrences_elem in Hb as [? _].
Qed.

(** X2: [repair_one_break_per_route] never drops, reorders or rewrites
    a visit: each output route is the input route itself or the input
    route with one of the given break indices inserted, so taking the
    element at the insertion position out again gives the input route
    back, and a route that had visits keeps its first visit first. *)
Theorem repair_one_break_per_route_keeps_visits {D : Type} (data : D)
    (solution : solution_like) (break_indices : list Z) (i : nat)
    (r : route_like) :
  routes_of solution !! i = Some r →
  ∃ o, (repair_one_break_per_route data solution break_indices).1 !! i
       = Some o ∧
    (o = visits_of r ∨
     ∃ b, b ∈ break_indices ∧ o = insert_break b (visits_of r) ∧
       length o = S (length (visits_of r)) ∧
       delete (length (visits_of r) `min` 1)%nat o = visits_of r) ∧
    visits_of r `sublist_of` o ∧
    (visits_of r ≠ [] → head o = head (visits_of r)).
Proof.
  intros Hr. rewrite repair_output_lookup, Hr. simpl.
  eexists. split; [done|].
  destruct (route_outcome_cases break_indices i r) as [->|(b & Hb & ->)].
  - split_and!; [by left|done|done].
  - split_and!.
    + right. exists b. split; [done|]. split; [done|].
      unfold insert_break, py_insert.
      destruct (visits_of r) as [|v rest]; [done|].
      simpl. by rewrite Nat.min_0_r.
    + unfold insert_break, py_insert.
      destruct (visits_of r) as [|v rest]; simpl.
      * apply sublist_nil_l.
      * by apply sublist_skip, sublist_cons.
    + intros Hne. unfold insert_break, py_insert.
      by destruct (visits_of r).
Qed.

Lemma repair_one_break_per_route_keeps_visits_witness :
  ∃ o, (repair_one_break_per_route () (SolutionList [RouteList [4; 5]])
          [9; 9]).1 !! 0%nat = Some o ∧
       [4; 5] `sublist_of` o.
Proof.
  destruct (repair_one_break_per_route_keeps_visits ()
              (SolutionList [RouteList [4; 5]]) [9; 9] 0 (RouteList [4; 5])
              eq_refl) as (o & Ho & _ & Hsub & _).
  exists o. split; [exact Ho|exact Hsub].
Defined.

Lemma all_breaks_insert_break (break_indices visits : list Z) (b : Z) :
  b ∈ break_indices →
  all_breaks break_indices (insert_break b visits) ↔
  all_breaks break_indices visits.
Proof.
  intros Hb. unfold all_breaks, insert_break, py_insert.
  destruct visits as [|v rest]; simpl.
  - split; intros _; [constructor|]. by repeat constructor.
  - rewrite !Forall_cons. tauto.
Qed.

Lemma filter_imap_length {A B C : Type} (P : B → Prop) (Q : C → Prop)
    `{∀ x, Decision (P x)} `{∀ x, Decision (Q x)}
    (g : A → C) (l : list A) (f : nat → A → B) :
  (∀ i x, P (f i x) ↔ Q (g x)) →
  length (filter P (imap f l)) = length (filter Q (g <$> l)).
Proof.
  revert f. induction l as [|x l IH]; intros f Hf; [done|].
  rewrite imap_cons, fmap_cons.
  destruct (decide (Q (g x))) as [Hx|Hx].
  - rewrite (filter_cons_True Q), (filter_cons_True P) by (by try apply Hf).
    simpl. f_equal. apply IH. intros i y. apply Hf.
  - rewrite (filter_cons_False Q), (filter_cons_False P)
      by (by try rewrite Hf).
    apply IH. intros i y. apply Hf.
Qed.

(** X3: filtering after repairing drops exactly the routes that were
    break-only before the repair (the routes without visits among
    them): an output route is break-only exactly when its input route
    was, and [remove_break_only_routes] removes as many routes from the
    repaired list as it would from the visit lists of the solution. *)
Theorem repair_then_remove_break_only {D : Type} (data : D)
    (solution : solution_like) (break_indices : list Z) :
  let repaired :=
    (repair_one_break_per_route data solution break_indices).1 in
  (∀ i r o, routes_of solution !! i = Some r → repaired !! i = Some o →
     (all_breaks break_indices o ↔ all_breaks break_indices (visits_of r))) ∧
  (remove_break_only_routes repaired break_indices).2
  = (remove_break_only_routes (visits_of <$> routes_of solution)
       break_indices).2 ∧
  length (remove_break_only_routes repaired break_indices).1
  = length (remove_break_only_routes (visits_of <$> routes_of solution)
              break_indices).1.
Proof.
  intros repaired.
  assert (∀ i r, all_breaks break_indices
                   (route_outcome (first_occurrences ∅ break_indices) i r)
                 ↔ all_breaks break_indices (visits_of r)) as Hsame.
  { intros i r.
    destruct (route_outcome_cases break_indices i r) as [->|(b & Hb & ->)];
      [done|by apply all_breaks_insert_break]. }
  assert (repaired = imap (route_outcome (first_occurrences ∅ break_indices))
                          (routes_of solution)) as Hrep.
  { apply list_eq. intros i. subst repaired.
    by rewrite repair_output_lookup, list_lookup_imap. }
  split_and!.
  - intros i r o Hr Ho. subst repaired.
    rewrite repair_output_lookup, Hr in Ho. injection Ho as <-.
    apply Hsame.
  - rewrite !remove_break_only_routes_filter, Hrep. cbn [snd].
    by apply filter_imap_length.
  - rewrite !remove_break_only_routes_filter, Hrep. cbn [fst].
    apply filter_imap_length. intros i r. by rewrite Hsame.
Qed.

Lemma repair_then_remove_break_only_witness :
  (remove_break_only_routes
     (repair_one_break_per_route ()
        (SolutionList [RouteList [4; 5]; RouteList []]) [8; 9]).1
     [8; 9]).2 = 1%nat.
Proof.
  destruct (repair_then_remove_break_only ()
              (SolutionList [RouteList [4; 5]; RouteList []]) [8; 9])
    as (_ & Hcount & _).
  rewrite Hcount. reflexivity.
Defined.

(** X4: [remove_break_only_routes] is idempotent: a second pass over
    the routes it kept removes nothing and changes nothing. *)
Theorem remove_break_only_routes_idempotent (routes : list (list Z))
    (break_indices : list Z) :
  remove_break_only_routes
    (remove_break_only_routes routes break_indices).1 break_indices
  = ((remove_break_only_routes routes break_indices).1, 0%nat).
Proof.
  rewrite !remove_break_only_routes_filter. cbn [fst]. f_equal.
  - by apply list_filter_filter_l.
  - rewrite list_filter_filter.
    induction routes as [|r rs IH]; [done|].
    rewrite filter_cons_False by tauto. exact IH.
Qed.

(** X5: [remove_break_only_routes] distributes over the concatenation
    of route lists: the kept routes are concatenated and the removed
    counts add up. *)
Theorem remove_break_only_routes_app (routes1 routes2 : list (list Z))
    (break_indices : list Z) :
  remove_break_only_routes (routes1 ++ routes2) break_indices
  = ((remove_break_only_routes routes1 break_indices).1
       ++ (remove_break_only_routes routes2 break_indices).1,
     ((remove_break_only_routes routes1 break_indices).2
        + (remove_break_only_routes routes2 break_indices).2)%nat).
Proof.
  rewrite !remove_break_only_routes_filter. cbn [fst snd].
  by rewrite !filter_app, length_app.
Qed.

(** X6: [remove_break_only_routes] looks at the break indices as a
    set: two lists with the same elements, in whatever order and with
    whatever repetitions, give the same result. *)
Theorem remove_break_only_routes_set (routes : list (list Z))
    (break_indices break_indices' : list Z) :
  (∀ v, v ∈ break_indices ↔ v ∈ break_indices') →
  remove_break_only_routes routes break_indices
  = remove_break_only_routes routes break_indices'.
Proof.
  intros Hsame. unfold remove_break_only_routes.
  replace (list_to_set break_indices' : gset Z)
    with (list_to_set break_indices : gset Z); [done|].
  apply set_eq. intros v. by rewrite !elem_of_list_to_set.
Qed.

Lemma remove_break_only_routes_set_witness :
  remove_break_only_routes [[7]; [1; 7]; [8; 7]] [7; 8]
  = remove_break_only_routes [[7]; [1; 7]; [8; 7]] [8; 7; 8].
Proof.
  apply (remove_break_only_routes_set [[7]; [1; 7]; [8; 7]] [7; 8] [8; 7; 8]).
  intros v. rewrite !elem_of_cons, !elem_of_nil. tauto.
Defined.

(** X7: without break indices [repair_one_break_per_route] returns the
    visit list of every route unchanged, and the flag is true only when
    the solution has no route. *)
Theorem repair_one_break_per_route_no_breaks {D : Type} (data : D)
    (solution : solution_like) :
  repair_one_break_per_route data solution []
  = (visits_of <$> routes_of solution,
     bool_decide (routes_of solution = [])).
Proof.
  rewrite (repair_closed_form data solution []) by constructor.
  f_equal.
  - apply list_eq. intros i. rewrite list_lookup_imap, list_lookup_fmap.
    by destruct (routes_of solution !! i).
  - apply bool_decide_ext. destruct (routes_of solution); simpl; [done|].
    split; [lia|done].
Qed.

(** * Further properties of the synthesizer *)

Lemma tabulates_unique (n : nat) (f : nat → nat → Z) (M M' : Matrix) :
  tabulates n f M → tabulates n f M' → M = M'.
Proof.
  intros [[Hl Hr] He] [[Hl' Hr'] He'].
  apply list_eq. intros i.
  destruct (decide (i < n)%nat) as [Hi|Hi].
  - destruct (lookup_lt_is_Some_2 M i) as [row Hrow]; [lia|].
    destruct (lookup_lt_is_Some_2 M' i) as [row' Hrow']; [lia|].
    rewrite Hrow, Hrow'. f_equal.
    pose proof (Forall_lookup_1 _ _ _ _ Hr Hrow) as Hlen.
    pose proof (Forall_lookup_1 _ _ _ _ Hr' Hrow') as Hlen'.
    simpl in Hlen, Hlen'.
    apply list_eq. intros j.
    destruct (decide (j < n)%nat) as [Hj|Hj].
    + specialize (He i j Hi Hj). specialize (He' i j Hi Hj).
      unfold entry in He, He'. rewrite Hrow in He. rewrite Hrow' in He'.
      simpl in He, He'. by rewrite He, He'.
    + by rewrite !lookup_ge_None_2 by lia.
  - by rewrite !lookup_ge_None_2 by lia.
Qed.

Lemma expands_shapes (zero_travel : bool) (old new : nat)
    (olds news : list Matrix) :
  expands zero_travel old new olds news →
  Forall (has_shape new new) news.
Proof.
  unfold expands. induction 1 as [|M M' olds news [Hs _] _ IH]; by constructor.
Qed.

Lemma synthesizer_keeps_wf (data : ProblemData) (extra : list Client.t)
    (zero_travel : bool) (dists durs : list Matrix) :
  wf_data data →
  expands zero_travel (num_locations data)
    (num_locations data + length extra)
    (distance_matrices data) dists →
  expands zero_travel (num_locations data)
    (num_locations data + length extra)
    (duration_matrices data) durs →
  wf_data (with_clients_matrices data (clients data ++ extra) dists durs).
Proof.
  intros (Hlen & _ & _ & Hvt) Hds Hus.
  assert (num_locations
            (with_clients_matrices data (clients data ++ extra) dists durs)
          = (num_locations data + length extra)%nat) as Hn.
  { unfold num_locations, num_depots, num_clients. simpl.
    rewrite length_app. lia. }
  unfold wf_data. rewrite Hn. simpl. split_and!.
  - by rewrite <- (Forall2_length _ _ _ Hds), <- (Forall2_length _ _ _ Hus).
  - by eapply expands_shapes.
  - by eapply expands_shapes.
  - unfold num_profiles in *. simpl.
    by rewrite <- (Forall2_length _ _ _ Hds).
Qed.

(** X8: the instance that a call of [add_per_vehicle_break_nodes] with
    at least one break returns, on a well-formed instance, has the
    depots, the vehicle types, the number of vehicles and of profiles
    and every existing client of the instance passed in, and is well
    formed again. *)
Theorem add_per_vehicle_break_nodes_preserves Client_check ProblemData_check
    (data : ProblemData) (K : Z)
    (depot_idx : Z) (make_required zero_travel : bool)
    (break_service : option Z) (break_tw : option (Z * Z))
    (new_data : ProblemData) (break_indices : list Z) :
  wf_data data → 1 ≤ K →
  add_per_vehicle_break_nodes Client_check ProblemData_check data K depot_idx
    make_required zero_travel break_service break_tw
  = Ok (new_data, break_indices) →
  depots new_data = depots data ∧
  vehicle_types new_data = vehicle_types data ∧
  num_vehicles new_data = num_vehicles data ∧
  num_profiles new_data = num_profiles data ∧
  take (num_clients data) (clients new_data) = clients data ∧
  wf_data new_data.
Proof.
  intros Hwf HK Hrun.
  assert (0 < K) as HK' by lia.
  destruct (add_per_vehicle_break_nodes_returns _ _ _ _ _ _ _ _ _ _ _
              Hwf HK' Hrun)
    as (depot & dists & durs & _ & _ & -> & _ & Hds & Hus & _).
  split_and!; try done.
  - unfold num_profiles. simpl. symmetry. by eapply Forall2_length.
  - simpl. unfold num_clients. by rewrite take_app_length.
  - apply (synthesizer_keeps_wf data _ zero_travel); [done| |];
      by rewrite length_fmap, length_seq.
Qed.

Lemma add_per_vehicle_break_nodes_preserves_witness :
  ∃ new_data break_indices,
    add_per_vehicle_break_nodes sample_Client_check sample_ProblemData_check
      sample_data 2 0 true false None None
      = Ok (new_data, break_indices) ∧
    depots new_data = [sample_depot] ∧ wf_data new_data.
Proof.
  destruct (add_per_vehicle_break_nodes sample_Client_check
              sample_ProblemData_check sample_data 2 0 true false None None)
    as [[new_data bi]|e] eqn:Hrun; [|by vm_compute in Hrun].
  destruct (add_per_vehicle_break_nodes_preserves sample_Client_check
              sample_ProblemData_check sample_data 2 0 true false None None
              new_data bi sample_data_wf)
    as (Hdep & _ & _ & _ & _ & Hwf); [lia|exact Hrun|].
  exists new_data, bi. split; [done|]. split; [exact Hdep|exact Hwf].
Defined.

(** X9: every break index that a call of [add_per_vehicle_break_nodes]
    returns names a client it appended: the [i]-th index lies past all
    old locations and inside the new location range, and the client at
    that location (the index minus the number of depots, in the client
    list) is the one named [break_i]; the indices are pairwise
    distinct. *)
Theorem add_per_vehicle_break_nodes_indices_name_clients
    Client_check ProblemData_check
    (data : ProblemData) (K : Z) (depot_idx : Z)
    (make_required zero_travel : bool)
    (break_service : option Z) (break_tw : option (Z * Z))
    (new_data : ProblemData) (break_indices : list Z) :
  1 ≤ K →
  add_per_vehicle_break_nodes Client_check ProblemData_check data K depot_idx
    make_required zero_travel break_service break_tw
  = Ok (new_data, break_indices) →
  NoDup break_indices ∧
  ∀ (i : nat) (b : Z), break_indices !! i = Some b →
    Z.of_nat (num_locations data) ≤ b < Z.of_nat (num_locations new_data) ∧
    ∃ c, clients new_data !! (Z.to_nat b - num_depots new_data)%nat = Some c ∧
      Client.name c = "break_" +:+ pretty i.
Proof.
  intros HK Hrun.
  assert (0 < K) as HK' by lia.
  destruct (add_per_vehicle_break_nodes_inv _ _ _ _ _ _ _ _ _ _ _ HK' Hrun)
    as (depot & dists & durs & _ & _ & _ & -> & -> & _).
  split; [apply NoDup_seqZ|].
  intros i b Hb. apply lookup_seqZ in Hb as [-> Hi].
  unfold num_locations, num_depots, num_clients. simpl.
  rewrite length_app, length_fmap, length_seq. split; [lia|].
  replace (Z.to_nat
             (Z.of_nat (length (depots data) + length (clients data))
              + Z.of_nat i) - length (depots data))%nat
    with (length (clients data) + i)%nat by lia.
  rewrite lookup_app_r by lia.
  replace (length (clients data) + i - length (clients data))%nat with i
    by lia.
  rewrite list_lookup_fmap, lookup_seq_lt by lia. simpl.
  by eexists.
Qed.

Lemma add_per_vehicle_break_nodes_indices_name_clients_witness :
  ∃ new_data break_indices,
    add_per_vehicle_break_nodes sample_Client_check sample_ProblemData_check
      sample_data 2 0 true true None None
      = Ok (new_data, break_indices) ∧ NoDup break_indices.
Proof.
  destruct (add_per_vehicle_break_nodes sample_Client_check
              sample_ProblemData_check sample_data 2 0 true true None None)
    as [[new_data bi]|e] eqn:Hrun; [|by vm_compute in Hrun].
  destruct (add_per_vehicle_break_nodes_indices_name_clients
              sample_Client_check sample_ProblemData_check sample_data 2 0
              true true None None new_data bi)
    as (Hnd & _); [lia|exact Hrun|].
  exists new_data, bi. split; [done|exact Hnd].
Defined.

(** X10: with [zero_travel] off, only the new rows over old columns and
    the new columns over old rows are filled from row 0 and column 0;
    in the matrices of the instance a call returns, travel between two
    break nodes stays zero. *)
Theorem add_per_vehicle_break_nodes_break_to_break_zero
    Client_check ProblemData_check
    (data : ProblemData) (K : Z) (depot_idx : Z) (make_required : bool)
    (break_service : option Z) (break_tw : option (Z * Z))
    (new_data : ProblemData) (break_indices : list Z) :
  wf_data data → 1 ≤ K →
  add_per_vehicle_break_nodes Client_check ProblemData_check data K depot_idx
    make_required false break_service break_tw
  = Ok (new_data, break_indices) →
  ∀ kind M', M' ∈ matrices_of kind new_data →
    ∀ i j, (num_locations data ≤ i < num_locations new_data)%nat →
           (num_locations data ≤ j < num_locations new_data)%nat →
           entry M' i j = Some 0.
Proof.
  intros Hwf HK Hrun.
  assert (0 < K) as HK' by lia.
  destruct (add_per_vehicle_break_nodes_expands _ _ _ _ _ _ _ _ _ _ _
              Hwf HK' Hrun) as (Hnew & Hpos & Hmat).
  intros kind M' HM' i j Hi Hj.
  destruct (Hmat kind) as (Hlen & Hkind).
  apply list_elem_of_lookup in HM' as [p HM'].
  destruct (lookup_lt_is_Some_2 (matrices_of kind data) p) as [M HM].
  { rewrite <- Hlen. by eapply lookup_lt_Some. }
  destruct (Hkind p M HM) as (_ & M'' & HM'' & _ & He).
  rewrite HM' in HM''. injection HM'' as <-.
  rewrite He by lia. unfold expanded_entry.
  repeat case_decide; try done; lia.
Qed.

Lemma add_per_vehicle_break_nodes_break_to_break_zero_witness :
  ∃ new_data break_indices,
    add_per_vehicle_break_nodes sample_Client_check sample_ProblemData_check
      sample_data 2 0 true false None None
      = Ok (new_data, break_indices) ∧
    ∀ M', M' ∈ distance_matrices new_data → entry M' 2 3 = Some 0.
Proof.
  destruct (add_per_vehicle_break_nodes sample_Client_check
              sample_ProblemData_check sample_data 2 0 true false None None)
    as [[new_data bi]|e] eqn:Hrun; [|by vm_compute in Hrun].
  exists new_data, bi. split; [done|].
  intros M' HM'.
  pose proof (add_per_vehicle_break_nodes_break_to_break_zero
                sample_Client_check sample_ProblemData_check sample_data 2 0
                true None None new_data bi sample_data_wf) as Hzero.
  specialize (Hzero ltac:(lia) Hrun Distance M' HM' 2%nat 3%nat).
  vm_compute in Hrun. injection Hrun as <- <-.
  apply Hzero; unfold num_locations, num_depots, num_clients; simpl; lia.
Defined.

(** X11: [add_per_vehicle_break_nodes] keeps symmetry: when an old
    matrix is symmetric, the matrix that a returning call built from it
    is symmetric too, with [zero_travel] on or off. *)
Theorem add_per_vehicle_break_nodes_symmetric
    Client_check ProblemData_check
    (data : ProblemData) (K : Z) (depot_idx : Z)
    (make_required zero_travel : bool)
    (break_service : option Z) (break_tw : option (Z * Z))
    (new_data : ProblemData) (break_indices : list Z) :
  wf_data data → 1 ≤ K →
  add_per_vehicle_break_nodes Client_check ProblemData_check data K depot_idx
    make_required zero_travel break_service break_tw
  = Ok (new_data, break_indices) →
  ∀ kind p M M',
    matrices_of kind data !! p = Some M →
    matrices_of kind new_data !! p = Some M' →
    symmetric_upto (num_locations data) M →
    symmetric_upto (num_locations new_data) M'.
Proof.
  intros Hwf HK Hrun.
  assert (0 < K) as HK' by lia.
  destruct (add_per_vehicle_break_nodes_expands _ _ _ _ _ _ _ _ _ _ _
              Hwf HK' Hrun) as (Hnew & Hpos & Hmat).
  intros kind p M M' HM HM' Hsym i j Hi Hj.
  destruct (Hmat kind) as (_ & Hkind).
  destruct (Hkind p M HM) as (_ & M'' & HM'' & _ & He).
  rewrite HM' in HM''. injection HM'' as <-.
  rewrite !He by done. f_equal. unfold expanded_entry.
  repeat case_decide; try done; try lia;
    destruct zero_travel; try done; rewrite Hsym by lia; done.
Qed.

Lemma add_per_vehicle_break_nodes_symmetric_witness :
  ∃ new_data break_indices,
    add_per_vehicle_break_nodes sample_Client_check sample_ProblemData_check
      {| depots := [sample_depot]; clients := [sample_client];
         vehicle_types := [sample_vehicle_type];
         distance_matrices := [[[0; 5]; [5; 0]]];
         duration_matrices := [[[0; 8]; [8; 0]]] |}
      1 0 true false None None = Ok (new_data, break_indices) ∧
    ∀ M', distance_matrices new_data !! 0%nat = Some M' →
      symmetric_upto (num_locations new_data) M'.
Proof.
  destruct (add_per_vehicle_break_nodes sample_Client_check
              sample_ProblemData_check
              {| depots := [sample_depot]; clients := [sample_client];
         vehicle_types := [sample_vehicle_type];
         distance_matrices := [[[0; 5]; [5; 0]]];
         duration_matrices := [[[0; 8]; [8; 0]]] |}
              1 0 true false None None)
    as [[new_data bi]|e] eqn:Hrun; [|by vm_compute in Hrun].
  exists new_data, bi. split; [done|].
  intros M' HM'.
  apply (add_per_vehicle_break_nodes_symmetric sample_Client_check
           sample_ProblemData_check
           {| depots := [sample_depot]; clients := [sample_client];
         vehicle_types := [sample_vehicle_type];
         distance_matrices := [[[0; 5]; [5; 0]]];
         duration_matrices := [[[0; 8]; [8; 0]]] |}
           1 0 true false None None new_data bi) with Distance 0%nat
           [[0; 5]; [5; 0]].
  - unfold wf_data, has_shape. simpl. split_and!; repeat constructor.
  - lia.
  - exact Hrun.
  - reflexivity.
  - exact HM'.
  - intros [|[|i]] [|[|j]] Hi Hj; try done;
      unfold num_locations, num_depots, num_clients in *; simpl in *; lia.
Defined.

Lemma expanded_twice (old n1 n2 : nat) (M M1 M2 M12 : Matrix) :
  (old ≤ n1)%nat → (n1 ≤ n2)%nat →
  tabulates n1 (expanded_entry true old M) M1 →
  tabulates n2 (expanded_entry true n1 M1) M2 →
  tabulates n2 (expanded_entry true old M) M12 →
  M2 = M12.
Proof.
  intros H1 H2 [_ He1] Ht2 Ht12.
  apply (tabulates_unique n2 (expanded_entry true old M)); [|done].
  eapply tabulates_ext; [|exact Ht2].
  intros i j Hi Hj. unfold expanded_entry at 1.
  case_decide as Hij; [by unfold expanded_entry; rewrite decide_True|].
  case_decide as Hin.
  - destruct Hin as [Hi1 Hj1]. by rewrite He1.
  - unfold expanded_entry. rewrite decide_False by done.
    by rewrite decide_False by lia.
Qed.

Lemma expands_twice (old n1 n2 : nat) (olds ds1 ds2 ds12 : list Matrix) :
  (old ≤ n1)%nat → (n1 ≤ n2)%nat →
  expands true old n1 olds ds1 →
  expands true n1 n2 ds1 ds2 →
  expands true old n2 olds ds12 →
  ds2 = ds12.
Proof.
  intros H1 H2 Hs1. unfold expands in *. revert ds2 ds12.
  induction Hs1 as [|M M1 olds ds1 HM1 _ IH]; intros ds2 ds12 Hs2 Hs12.
  - apply Forall2_nil_inv_l in Hs2, Hs12. by subst.
  - apply Forall2_cons_inv_l in Hs2 as (M2 & ds2' & HM2 & Hs2 & ->).
    apply Forall2_cons_inv_l in Hs12 as (M12 & ds12' & HM12 & Hs12 & ->).
    f_equal; [|by apply IH].
    by apply (expanded_twice old n1 n2 M M1 M2 M12).
Qed.

(** X12: with [zero_travel] on, when adding [K1] break nodes, then
    [K2] more, and adding [K1 + K2] at once all return, the two-step
    result has the matrices, the location count and, put together, the
    break indices of the one-step result; the second call may use
    another depot, flag and overrides. *)
Theorem add_per_vehicle_break_nodes_twice Client_check ProblemData_check
    (data : ProblemData) (K1 K2 : Z)
    (depot_idx depot_idx' : Z) (make_required make_required' : bool)
    (break_service break_service' : option Z)
    (break_tw break_tw' : option (Z * Z))
    (data1 data2 data12 : ProblemData) (indices1 indices2 indices12 : list Z) :
  wf_data data → 1 ≤ K1 → 1 ≤ K2 →
  add_per_vehicle_break_nodes Client_check ProblemData_check data K1
    depot_idx make_required true break_service break_tw
  = Ok (data1, indices1) →
  add_per_vehicle_break_nodes Client_check ProblemData_check data1 K2
    depot_idx' make_required' true break_service' break_tw'
  = Ok (data2, indices2) →
  add_per_vehicle_break_nodes Client_check ProblemData_check data (K1 + K2)
    depot_idx make_required true break_service break_tw
  = Ok (data12, indices12) →
  distance_matrices data2 = distance_matrices data12 ∧
  duration_matrices data2 = duration_matrices data12 ∧
  num_locations data2 = num_locations data12 ∧
  indices1 ++ indices2 = indices12.
Proof.
  intros Hwf HK1 HK2 Hrun1 Hrun2 Hrun12.
  assert (0 < K1) as HK1' by lia.
  assert (0 < K2) as HK2' by lia.
  assert (0 < K1 + K2) as HK12' by lia.
  destruct (add_per_vehicle_break_nodes_returns _ _ _ _ _ _ _ _ _ _ _
              Hwf HK1' Hrun1)
    as (dp1 & ds1 & us1 & _ & _ & -> & -> & Hds1 & Hus1 & _).
  destruct (add_per_vehicle_break_nodes_returns _ _ _ _ _ _ _ _ _ _ _
              Hwf HK12' Hrun12)
    as (dp12 & ds12 & us12 & _ & _ & -> & -> & Hds12 & Hus12 & _).
  set (extra := break_client dp1
                  (default (Depot.service_duration dp1) break_service)
                  (from_option fst 660 break_tw)
                  (from_option snd 840 break_tw) make_required
                <$> seq 0 (Z.to_nat K1)) in *.
  assert (length extra = Z.to_nat K1) as Hextra
    by (subst extra; by rewrite length_fmap, length_seq).
  set (data1 := with_clients_matrices data (clients data ++ extra) ds1 us1)
    in *.
  assert (wf_data data1) as Hwf1.
  { apply (synthesizer_keeps_wf data extra true); [done| |];
      by rewrite Hextra. }
  assert (num_locations data1 = (num_locations data + Z.to_nat K1)%nat)
    as Hn1.
  { subst data1. unfold num_locations, num_depots, num_clients. simpl.
    rewrite length_app. lia. }
  destruct (add_per_vehicle_break_nodes_returns _ _ _ _ _ _ _ _ _ _ _
              Hwf1 HK2' Hrun2)
    as (dp2 & ds2 & us2 & _ & _ & -> & -> & Hds2 & Hus2 & _).
  rewrite Hn1 in Hds2, Hus2. simpl in Hds2, Hus2.
  replace (num_locations data + Z.to_nat (K1 + K2))%nat
    with (num_locations data + Z.to_nat K1 + Z.to_nat K2)%nat
    in Hds12, Hus12 by lia.
  simpl. split_and!.
  - apply (expands_twice (num_locations data)
             (num_locations data + Z.to_nat K1)
             (num_locations data + Z.to_nat K1 + Z.to_nat K2)
             (distance_matrices data) ds1); [lia|lia|done..].
  - apply (expands_twice (num_locations data)
             (num_locations data + Z.to_nat K1)
             (num_locations data + Z.to_nat K1 + Z.to_nat K2)
             (duration_matrices data) us1); [lia|lia|done..].
  - unfold num_locations, num_depots, num_clients. simpl.
    rewrite !length_app, !length_fmap, !length_seq, Hextra. lia.
  - rewrite Hn1, seqZ_app by lia. do 2 f_equal. lia.
Qed.

Lemma add_per_vehicle_break_nodes_twice_witness :
  ∃ data1 indices1 data2 indices2 data12 indices12,
    add_per_vehicle_break_nodes sample_Client_check sample_ProblemData_check
      sample_data 1 0 true true None None
      = Ok (data1, indices1) ∧
    add_per_vehicle_break_nodes sample_Client_check sample_ProblemData_check
      data1 2 0 false true (Some 15) None
      = Ok (data2, indices2) ∧
    add_per_vehicle_break_nodes sample_Client_check sample_ProblemData_check
      sample_data (1 + 2) 0 true true None None
      = Ok (data12, indices12) ∧
    distance_matrices data2 = distance_matrices data12 ∧
    indices1 ++ indices2 = indices12.
Proof.
  destruct (add_per_vehicle_break_nodes sample_Client_check
              sample_ProblemData_check sample_data 1 0 true true None None)
    as [[d1 b1]|e] eqn:H1; [|by vm_compute in H1].
  destruct (add_per_vehicle_break_nodes sample_Client_check
              sample_ProblemData_check d1 2 0 false true (Some 15) None)
    as [[d2 b2]|e] eqn:H2;
    [|by (vm_compute in H1; injection H1 as <- <-; vm_compute in H2)].
  destruct (add_per_vehicle_break_nodes sample_Client_check
              sample_ProblemData_check sample_data (1 + 2) 0 true true
              None None)
    as [[d12 b12]|e] eqn:H12; [|by vm_compute in H12].
  destruct (add_per_vehicle_break_nodes_twice sample_Client_check
              sample_ProblemData_check sample_data 1 2 0 0 true false
              None (Some 15) None None d1 d2 d12 b1 b2 b12 sample_data_wf)
    as (Hd & _ & _ & Hb); [lia|lia|exact H1|exact H2|exact H12|].
  exists d1, b1, d2, b2, d12, b12.
  split; [done|]. split; [done|]. split; [done|].
  split; [exact Hd|exact Hb].
Defined.

(** X13: the names [break_0], [break_1], ... are distinct within one
    call only: a second call on the result starts again at [break_0],
    so the client it appends at position [i] has the name of the
    client the first call appended at position [i]. *)
Theorem add_per_vehicle_break_nodes_names_repeat
    Client_check ProblemData_check (data : ProblemData)
    (K1 K2 : Z) (depot_idx depot_idx' : Z)
    (make_required make_required' zero_travel zero_travel' : bool)
    (break_service break_service' : option Z)
    (break_tw break_tw' : option (Z * Z))
    (data1 data2 : ProblemData) (indices1 indices2 : list Z) :
  1 ≤ K1 → 1 ≤ K2 →
  add_per_vehicle_break_nodes Client_check ProblemData_check data K1
    depot_idx make_required zero_travel break_service break_tw
  = Ok (data1, indices1) →
  add_per_vehicle_break_nodes Client_check ProblemData_check data1 K2
    depot_idx' make_required' zero_travel' break_service' break_tw'
  = Ok (data2, indices2) →
  ∀ i : nat, Z.of_nat i < K1 → Z.of_nat i < K2 →
    ∃ c c',
      clients data2 !! (num_clients data + i)%nat = Some c ∧
      clients data2 !! (num_clients data + Z.to_nat K1 + i)%nat = Some c' ∧
      Client.name c = "break_" +:+ pretty i ∧
      Client.name c' = "break_" +:+ pretty i.
Proof.
  intros HK1 HK2 Hrun1 Hrun2.
  assert (0 < K1) as HK1' by lia.
  assert (0 < K2) as HK2' by lia.
  destruct (add_per_vehicle_break_nodes_inv _ _ _ _ _ _ _ _ _ _ _ HK1' Hrun1)
    as (dp1 & ds1 & us1 & _ & _ & _ & -> & _).
  set (extra := break_client dp1
                  (default (Depot.service_duration dp1) break_service)
                  (from_option fst 660 break_tw)
                  (from_option snd 840 break_tw) make_required
                <$> seq 0 (Z.to_nat K1)) in *.
  assert (length extra = Z.to_nat K1) as Hextra
    by (subst extra; by rewrite length_fmap, length_seq).
  destruct (add_per_vehicle_break_nodes_inv _ _ _ _ _ _ _ _ _ _ _ HK2' Hrun2)
    as (dp2 & ds2 & us2 & _ & _ & _ & -> & _).
  intros i Hi1 Hi2. simpl. unfold num_clients. do 2 eexists. split_and!.
  - rewrite lookup_app_l by (rewrite length_app; lia).
    rewrite lookup_app_r by lia.
    replace (length (clients data) + i - length (clients data))%nat with i
      by lia.
    subst extra. by rewrite list_lookup_fmap, lookup_seq_lt by lia.
  - rewrite lookup_app_r by (rewrite length_app; lia).
    replace (length (clients data) + Z.to_nat K1 + i
             - length (clients data ++ extra))%nat with i
      by (rewrite length_app; lia).
    by rewrite list_lookup_fmap, lookup_seq_lt by lia.
  - done.
  - done.
Qed.

Lemma add_per_vehicle_break_nodes_names_repeat_witness :
  ∃ data1 indices1 data2 indices2 c c',
    add_per_vehicle_break_nodes sample_Client_check sample_ProblemData_check
      sample_data 2 0 true true None None
      = Ok (data1, indices1) ∧
    add_per_vehicle_break_nodes sample_Client_check sample_ProblemData_check
      data1 1 0 true true None None
      = Ok (data2, indices2) ∧
    clients data2 !! 1%nat = Some c ∧ clients data2 !! 3%nat = Some c' ∧
    Client.name c = Client.name c'.
Proof.
  destruct (add_per_vehicle_break_nodes sample_Client_check
              sample_ProblemData_check sample_data 2 0 true true None None)
    as [[d1 b1]|e] eqn:H1; [|by vm_compute in H1].
  destruct (add_per_vehicle_break_nodes sample_Client_check
              sample_ProblemData_check d1 1 0 true true None None)
    as [[d2 b2]|e] eqn:H2;
    [|by (vm_compute in H1; injection H1 as <- <-; vm_compute in H2)].
  destruct (add_per_vehicle_break_nodes_names_repeat sample_Client_check
              sample_ProblemData_check sample_data 2 1 0 0
              true true true true None None None None d1 d2 b1 b2
              ltac:(lia) ltac:(lia) H1 H2 0%nat)
    as (c & c' & Hc & Hc' & Hn & Hn'); [lia|lia|].
  exists d1, b1, d2, b2, c, c'.
  split; [done|]. split; [done|]. split; [exact Hc|].
  split; [exact Hc'|]. by rewrite Hn, Hn'.
Defined.

(** * Further properties of the profile builder *)

(** X14: [add_one_break_per_vehicle] checks nothing itself: with no
    vehicle it returns the instance and an empty list whatever the
    depot index is, and with at least one vehicle a depot index outside
    [0, num_depots) raises the [IndexError] of
    [add_per_vehicle_break_nodes]. *)
Theorem add_one_break_per_vehicle_edges Client_check ProblemData_check
    (MAX_VALUE : Z)
    (data : ProblemData) (break_service : Z) (break_tw : Z * Z)
    (depot_idx : Z) :
  (num_vehicles data = 0%nat →
   add_one_break_per_vehicle Client_check ProblemData_check MAX_VALUE data
     break_service break_tw depot_idx
   = Ok (data, [])) ∧
  ((1 ≤ num_vehicles data)%nat →
   ¬ (0 ≤ depot_idx < Z.of_nat (num_depots data)) →
   add_one_break_per_vehicle Client_check ProblemData_check MAX_VALUE data
     break_service break_tw depot_idx
   = Raise IndexError).
Proof.
  split.
  - intros Hnv. unfold add_one_break_per_vehicle.
    by rewrite bool_decide_eq_true_2 by lia.
  - intros Hnv Hbad. unfold add_one_break_per_vehicle.
    rewrite bool_decide_eq_false_2 by lia.
    unfold add_per_vehicle_break_nodes.
    rewrite bool_decide_eq_false_2 by lia.
    rewrite bool_decide_eq_true_2; [done|].
    unfold num_depots in Hbad. lia.
Qed.

Lemma add_one_break_per_vehicle_edges_witness :
  add_one_break_per_vehicle sample_Client_check sample_ProblemData_check
    (2 ^ 44) sample_data 30 (660, 840) 1
  = Raise IndexError.
Proof.
  apply (add_one_break_per_vehicle_edges sample_Client_check
           sample_ProblemData_check (2 ^ 44) sample_data 30 (660, 840) 1).
  - unfold num_vehicles. simpl. lia.
  - unfold num_depots. simpl. lia.
Defined.

(** X15: the instance that a call of [add_one_break_per_vehicle]
    returns has the depots and the existing clients of the instance
    passed in and one more client per vehicle; the client of vehicle
    [v] sits at the location the [v]-th returned break index names, is
    required, has the given service duration and time window, the
    coordinates of the reference depot, and the name [break_v]. *)
Theorem add_one_break_per_vehicle_clients Client_check ProblemData_check
    (MAX_VALUE : Z)
    (data : ProblemData) (break_service : Z) (break_tw : Z * Z)
    (depot_idx : Z) (new_data : ProblemData) (break_indices : list Z) :
  wf_data data → (1 ≤ num_vehicles data)%nat →
  add_one_break_per_vehicle Client_check ProblemData_check MAX_VALUE data
    break_service break_tw depot_idx = Ok (new_data, break_indices) →
  ∃ depot,
    depots data !! Z.to_nat depot_idx = Some depot ∧
    depots new_data = depots data ∧
    take (num_clients data) (clients new_data) = clients data ∧
    num_clients new_data = (num_clients data + num_vehicles data)%nat ∧
    ∀ veh, (veh < num_vehicles data)%nat →
      ∃ b c,
        break_indices !! veh = Some b ∧
        clients new_data !! (Z.to_nat b - num_depots new_data)%nat = Some c ∧
        Client.required c = true ∧
        Client.service_duration c = break_service ∧
        (Client.tw_early c, Client.tw_late c) = break_tw ∧
        Client.x c = Depot.x depot ∧ Client.y c = Depot.y depot ∧
        Client.delivery c = [0] ∧ Client.pickup c = [0] ∧
        Client.name c = "break_" +:+ pretty veh.
Proof.
  intros Hwf Hnv Hrun.
  assert (0 < num_vehicles data)%nat as Hnv' by lia.
  destruct (add_one_break_per_vehicle_returns _ _ _ _ _ _ _ _ _ Hwf Hnv' Hrun)
    as (depot & dists0 & durs0 & vts & dms & ums & M0d & M0u & _ & Hdepot
        & _ & _ & -> & -> & _).
  exists depot. split; [done|]. simpl.
  split_and!; [done| | |].
  - unfold num_clients. by rewrite take_app_length.
  - unfold num_clients. simpl. by rewrite length_app, length_fmap, length_seq.
  - intros veh Hveh. do 2 eexists.
    split; [by rewrite lookup_seqZ_lt by lia|].
    unfold num_locations, num_depots, num_clients. simpl.
    replace (Z.to_nat
               (Z.of_nat (length (depots data) + length (clients data))
                + Z.of_nat veh) - length (depots data))%nat
      with (length (clients data) + veh)%nat by lia.
    rewrite lookup_app_r by lia.
    replace (length (clients data) + veh - length (clients data))%nat
      with veh by lia.
    rewrite list_lookup_fmap, lookup_seq_lt by lia. simpl.
    split_and!; try done. by destruct break_tw.
Qed.

Lemma add_one_break_per_vehicle_clients_witness :
  ∃ new_data break_indices,
    add_one_break_per_vehicle sample_Client_check sample_ProblemData_check
      (2 ^ 44) sample_data 30 (660, 840) 0
    = Ok (new_data, break_indices) ∧
    depots new_data = [sample_depot] ∧ num_clients new_data = 3%nat.
Proof.
  destruct (add_one_break_per_vehicle sample_Client_check
              sample_ProblemData_check (2 ^ 44) sample_data 30 (660, 840) 0)
    as [[new_data bi]|e] eqn:Hrun; [|by vm_compute in Hrun].
  destruct (add_one_break_per_vehicle_clients sample_Client_check
              sample_ProblemData_check (2 ^ 44) sample_data 30
              (660, 840) 0 new_data bi sample_data_wf)
    as (depot & _ & Hdep & _ & Hn & _); [|exact Hrun|].
  { unfold num_vehicles. simpl. lia. }
  exists new_data, bi. split; [done|]. split; [exact Hdep|exact Hn].
Defined.

Lemma vehicle_shapes (MAX_VALUE : Z) (old new : nat)
    (base : nat → nat → Z) (vehs : list nat) (Ms : list Matrix) :
  Forall2 (λ veh M, tabulates new (vehicle_entry MAX_VALUE old veh base) M)
          vehs Ms →
  Forall (has_shape new new) Ms.
Proof. induction 1 as [|veh M vehs Ms [Hs _] _ IH]; by constructor. Qed.

(** X16: the instance that a call of [add_one_break_per_vehicle]
    returns is well formed again: it has as many distance as duration
    matrices, one pair per vehicle, each of the new size, and every
    vehicle type refers to one of them. *)
Theorem add_one_break_per_vehicle_well_formed Client_check
    ProblemData_check (MAX_VALUE : Z)
    (data : ProblemData) (break_service : Z) (break_tw : Z * Z)
    (depot_idx : Z) (new_data : ProblemData) (break_indices : list Z) :
  wf_data data → (1 ≤ num_vehicles data)%nat →
  add_one_break_per_vehicle Client_check ProblemData_check MAX_VALUE data
    break_service break_tw depot_idx = Ok (new_data, break_indices) →
  wf_data new_data ∧
  num_depots new_data = num_depots data ∧
  length (distance_matrices new_data) = num_vehicles data ∧
  length (duration_matrices new_data) = num_vehicles data.
Proof.
  intros Hwf Hnv Hrun.
  assert (0 < num_vehicles data)%nat as Hnv' by lia.
  destruct (add_one_break_per_vehicle_returns _ _ _ _ _ _ _ _ _ Hwf Hnv' Hrun)
    as (depot & dists0 & durs0 & vts & dms & ums & M0d & M0u & _ & _ & _ & _
        & -> & _ & _ & _ & _ & Hdms & Hums & Hvts & _).
  pose proof (Forall2_length _ _ _ Hdms) as Hld.
  pose proof (Forall2_length _ _ _ Hums) as Hlu.
  rewrite length_seq in Hld, Hlu.
  split_and!; [|done|by simpl|by simpl].
  unfold wf_data, num_profiles.
  replace (num_locations _)
    with (num_locations data + num_vehicles data)%nat.
  2:{ unfold num_locations, num_depots, num_clients. simpl.
      rewrite length_app, length_fmap, length_seq. lia. }
  simpl. split_and!.
  - lia.
  - by eapply vehicle_shapes.
  - by eapply vehicle_shapes.
  - destruct (per_vehicle_types_fields _ _ _ Hvts) as (Hprof & _ & _).
    apply Forall_forall. intros vt Hvt.
    assert (VehicleType.profile vt ∈ VehicleType.profile <$> vts) as Hin
      by (by apply list_elem_of_fmap_2).
    rewrite Hprof in Hin. apply elem_of_seq in Hin. lia.
Qed.

Lemma add_one_break_per_vehicle_well_formed_witness :
  ∃ new_data break_indices,
    add_one_break_per_vehicle sample_Client_check sample_ProblemData_check
      (2 ^ 44) sample_data 30 (660, 840) 0
    = Ok (new_data, break_indices) ∧ wf_data new_data.
Proof.
  destruct (add_one_break_per_vehicle sample_Client_check
              sample_ProblemData_check (2 ^ 44) sample_data 30 (660, 840) 0)
    as [[new_data bi]|e] eqn:Hrun; [|by vm_compute in Hrun].
  destruct (add_one_break_per_vehicle_well_formed sample_Client_check
              sample_ProblemData_check (2 ^ 44) sample_data 30
              (660, 840) 0 new_data bi sample_data_wf)
    as (Hwf & _); [|exact Hrun|].
  { unfold num_vehicles. simpl. lia. }
  exists new_data, bi. split; [done|exact Hwf].
Defined.

(** X17: the break nodes and the profiles pair off one to one: in the
    matrices of vehicle [w] that a call of [add_one_break_per_vehicle]
    returns, the break node of vehicle [v] is at cost zero from and to
    every depot and original client when [v = w] and at cost
    [MAX_VALUE] when [v ≠ w]. *)
Theorem add_one_break_per_vehicle_exclusive Client_check ProblemData_check
    (MAX_VALUE : Z)
    (data : ProblemData) (break_service : Z) (break_tw : Z * Z)
    (depot_idx : Z) (new_data : ProblemData) (break_indices : list Z) :
  wf_data data → (1 ≤ num_vehicles data)%nat →
  add_one_break_per_vehicle Client_check ProblemData_check MAX_VALUE data
    break_service break_tw depot_idx = Ok (new_data, break_indices) →
  ∀ v w b kind M i,
    break_indices !! v = Some b →
    matrices_of kind new_data !! w = Some M →
    (i < num_locations data)%nat →
    entry M (Z.to_nat b) i = Some (if decide (v = w) then 0 else MAX_VALUE) ∧
    entry M i (Z.to_nat b) = Some (if decide (v = w) then 0 else MAX_VALUE).
Proof.
  intros Hwf Hnv Hrun.
  assert (0 < num_vehicles data)%nat as Hnv' by lia.
  destruct (add_one_break_per_vehicle_facts _ _ _ _ _ _ _ _ _ Hwf Hnv' Hrun)
    as (-> & Hn & Hpos & Hmat & _).
  intros v w b kind M i Hb HM Hi.
  apply lookup_seqZ in Hb as [-> Hv].
  destruct (Hmat kind) as (M0 & _ & _ & Hall).
  destruct (Forall2_lookup_r _ _ _ _ _ Hall HM) as (w' & Hw' & [_ He]).
  apply lookup_seq in Hw' as [-> Hw]. simpl in He.
  replace (Z.to_nat (Z.of_nat (num_locations data) + Z.of_nat v))
    with (num_locations data + v)%nat by lia.
  rewrite !He by lia. unfold vehicle_entry, expanded_entry.
  split; repeat case_decide; try done; lia.
Qed.

Lemma add_one_break_per_vehicle_exclusive_witness :
  ∃ new_data break_indices,
    add_one_break_per_vehicle sample_Client_check sample_ProblemData_check
      (2 ^ 44) sample_data 30 (660, 840) 0
    = Ok (new_data, break_indices) ∧
    ∀ M, distance_matrices new_data !! 1%nat = Some M →
      entry M 2 0 = Some (2 ^ 44) ∧ entry M 3 0 = Some 0.
Proof.
  destruct (add_one_break_per_vehicle sample_Client_check
              sample_ProblemData_check (2 ^ 44) sample_data 30 (660, 840) 0)
    as [[new_data bi]|e] eqn:Hrun; [|by vm_compute in Hrun].
  exists new_data, bi. split; [done|].
  intros M HM.
  pose proof (add_one_break_per_vehicle_exclusive sample_Client_check
                sample_ProblemData_check (2 ^ 44) sample_data 30
                (660, 840) 0 new_data bi sample_data_wf) as Hex.
  assert (1 ≤ num_vehicles sample_data)%nat as Hnv
    by (unfold num_vehicles; simpl; lia).
  specialize (Hex Hnv Hrun).
  vm_compute in Hrun. injection Hrun as <- <-.
  split.
  - apply (Hex 0%nat 1%nat 2 Distance M 0%nat eq_refl HM).
    unfold num_locations, num_depots, num_clients. simpl. lia.
  - apply (Hex 1%nat 1%nat 3 Distance M 0%nat eq_refl HM).
    unfold num_locations, num_depots, num_clients. simpl. lia.
Defined.

Lemma expands_unique (zero_travel : bool) (old new : nat)
    (olds ds ds' : list Matrix) :
  expands zero_travel old new olds ds →
  expands zero_travel old new olds ds' →
  ds = ds'.
Proof.
  unfold expands. intros Hs. revert ds'.
  induction Hs as [|M M1 olds ds HM1 _ IH]; intros ds' Hs'.
  - apply Forall2_nil_inv_l in Hs'. by subst.
  - apply Forall2_cons_inv_l in Hs' as (M2 & ds2 & HM2 & Hs2 & ->).
    f_equal; [|by apply IH].
    by apply (tabulates_unique new (expanded_entry zero_travel old M)).
Qed.

(** X18: with a single vehicle nothing is forbidden: when
    [add_one_break_per_vehicle] returns, so does
    [add_per_vehicle_break_nodes] with one break, the given service
    duration and time window and both flags on, with the same break
    index; the one pair of matrices the former returns is the pair the
    latter builds for profile 0, and the clients agree. *)
Theorem add_one_break_per_vehicle_single Client_check ProblemData_check
    (MAX_VALUE : Z)
    (data : ProblemData) (break_service : Z) (break_tw : Z * Z)
    (depot_idx : Z) (new_data : ProblemData) (break_indices : list Z) :
  wf_data data → num_vehicles data = 1%nat →
  add_one_break_per_vehicle Client_check ProblemData_check MAX_VALUE data
    break_service break_tw depot_idx = Ok (new_data, break_indices) →
  ∃ syn_data,
    add_per_vehicle_break_nodes Client_check ProblemData_check data 1
      depot_idx true true (Some break_service) (Some break_tw)
    = Ok (syn_data, break_indices) ∧
    distance_matrices new_data = take 1 (distance_matrices syn_data) ∧
    duration_matrices new_data = take 1 (duration_matrices syn_data) ∧
    clients new_data = clients syn_data.
Proof.
  intros Hwf Hnv Hrun.
  assert (0 < num_vehicles data)%nat as Hnv' by lia.
  destruct (add_one_break_per_vehicle_returns _ _ _ _ _ _ _ _ _ Hwf Hnv' Hrun)
    as (depot & dists0 & durs0 & vts & dms & ums & M0d & M0u & _ & Hdepot
        & HM0d & HM0u & -> & Hbi & Hsyn & Hds & Hus & Hdms & Hums & _).
  clear Hrun Hbi. rewrite Hnv in *. simpl in Hsyn.
  eexists. split; [exact Hsyn|]. simpl.
  assert (∀ (M0 : Matrix) (olds ds Ms : list Matrix),
            olds !! 0%nat = Some M0 →
            expands true (num_locations data) (num_locations data + 1)
              olds ds →
            Forall2 (λ veh M,
                       tabulates (num_locations data + 1)
                         (vehicle_entry MAX_VALUE (num_locations data) veh
                            (expanded_entry true (num_locations data) M0)) M)
                    (seq 0 1) Ms →
            Ms = take 1 ds) as Hone.
  { intros M0 olds ds Ms HM0 Hexp HMs.
    destruct olds as [|M0' olds]; [done|]. injection HM0 as ->.
    apply Forall2_cons_inv_l in Hexp as (E & ds' & HE & _ & ->).
    simpl in HMs.
    apply Forall2_cons_inv_l in HMs as (M & Ms' & HM & HMs & ->).
    apply Forall2_nil_inv_l in HMs as ->. simpl. f_equal.
    apply (tabulates_unique (num_locations data + 1)
             (expanded_entry true (num_locations data) M0)); [|done].
    eapply tabulates_ext; [|exact HM].
    intros i j Hi Hj. unfold vehicle_entry, expanded_entry.
    repeat case_decide; try done; lia. }
  split_and!; [|  |done].
  - exact (Hone M0d _ dists0 dms HM0d Hds Hdms).
  - exact (Hone M0u _ durs0 ums HM0u Hus Hums).
Qed.

Lemma add_one_break_per_vehicle_single_witness :
  ∃ syn_data new_data break_indices,
    add_per_vehicle_break_nodes sample_Client_check sample_ProblemData_check
      {| depots := [sample_depot]; clients := [sample_client];
         vehicle_types := [VehicleType.replace sample_vehicle_type 1 0 "van"];
         distance_matrices := [[[0; 5]; [6; 0]]];
         duration_matrices := [[[0; 8]; [9; 0]]] |}
      1 0 true true (Some 30) (Some (660, 840))
      = Ok (syn_data, break_indices) ∧
    add_one_break_per_vehicle sample_Client_check sample_ProblemData_check
      (2 ^ 44)
      {| depots := [sample_depot]; clients := [sample_client];
         vehicle_types := [VehicleType.replace sample_vehicle_type 1 0 "van"];
         distance_matrices := [[[0; 5]; [6; 0]]];
         duration_matrices := [[[0; 8]; [9; 0]]] |}
      30 (660, 840) 0 = Ok (new_data, break_indices) ∧
    distance_matrices new_data = take 1 (distance_matrices syn_data).
Proof.
  destruct (add_one_break_per_vehicle sample_Client_check
              sample_ProblemData_check (2 ^ 44)
              {| depots := [sample_depot]; clients := [sample_client];
         vehicle_types := [VehicleType.replace sample_vehicle_type 1 0 "van"];
         distance_matrices := [[[0; 5]; [6; 0]]];
         duration_matrices := [[[0; 8]; [9; 0]]] |}
              30 (660, 840) 0)
    as [[new_data bi]|e] eqn:Hrun; [|by vm_compute in Hrun].
  destruct (add_one_break_per_vehicle_single sample_Client_check
              sample_ProblemData_check (2 ^ 44)
              {| depots := [sample_depot]; clients := [sample_client];
         vehicle_types := [VehicleType.replace sample_vehicle_type 1 0 "van"];
         distance_matrices := [[[0; 5]; [6; 0]]];
         duration_matrices := [[[0; 8]; [9; 0]]] |}
              30 (660, 840) 0 new_data bi)
    as (syn & Hsyn & Hd & _).
  - unfold wf_data, has_shape. simpl. split_and!; repeat constructor.
  - reflexivity.
  - exact Hrun.
  - exists syn, new_data, bi. split; [exact Hsyn|]. split; [done|exact Hd].
Defined.

(** X19: [add_one_break_per_vehicle] keeps symmetry: when the matrix
    of profile 0 is symmetric, so is the matrix of every vehicle in the
    instance a call returns. *)
Theorem add_one_break_per_vehicle_symmetric Client_check ProblemData_check
    (MAX_VALUE : Z)
    (data : ProblemData) (break_service : Z) (break_tw : Z * Z)
    (depot_idx : Z) (new_data : ProblemData) (break_indices : list Z) :
  wf_data data → (1 ≤ num_vehicles data)%nat →
  add_one_break_per_vehicle Client_check ProblemData_check MAX_VALUE data
    break_service break_tw depot_idx = Ok (new_data, break_indices) →
  ∀ kind M0, matrices_of kind data !! 0%nat = Some M0 →
    symmetric_upto (num_locations data) M0 →
    Forall (symmetric_upto (num_locations new_data))
           (matrices_of kind new_data).
Proof.
  intros Hwf Hnv Hrun.
  assert (0 < num_vehicles data)%nat as Hnv' by lia.
  destruct (add_one_break_per_vehicle_facts _ _ _ _ _ _ _ _ _ Hwf Hnv' Hrun)
    as (_ & Hn & Hpos & Hmat & _).
  intros kind M0 HM0 Hsym.
  destruct (Hmat kind) as (M0' & HM0' & _ & Hall).
  rewrite HM0 in HM0'. injection HM0' as <-.
  apply Forall_lookup. intros w M HM.
  destruct (Forall2_lookup_r _ _ _ _ _ Hall HM) as (w' & _ & [_ He]).
  rewrite Hn. intros i j Hi Hj. rewrite !He by done. f_equal.
  unfold vehicle_entry, expanded_entry.
  repeat case_decide; try done; try lia; try tauto.
  by rewrite Hsym by tauto.
Qed.

Lemma add_one_break_per_vehicle_symmetric_witness :
  ∃ new_data break_indices,
    add_one_break_per_vehicle sample_Client_check sample_ProblemData_check
      (2 ^ 44)
      {| depots := [sample_depot]; clients := [sample_client];
         vehicle_types := [sample_vehicle_type];
         distance_matrices := [[[0; 5]; [5; 0]]];
         duration_matrices := [[[0; 8]; [8; 0]]] |}
      30 (660, 840) 0 = Ok (new_data, break_indices) ∧
    Forall (symmetric_upto (num_locations new_data))
           (distance_matrices new_data).
Proof.
  destruct (add_one_break_per_vehicle sample_Client_check
              sample_ProblemData_check (2 ^ 44)
              {| depots := [sample_depot]; clients := [sample_client];
         vehicle_types := [sample_vehicle_type];
         distance_matrices := [[[0; 5]; [5; 0]]];
         duration_matrices := [[[0; 8]; [8; 0]]] |}
              30 (660, 840) 0)
    as [[new_data bi]|e] eqn:Hrun; [|by vm_compute in Hrun].
  exists new_data, bi. split; [done|].
  apply (add_one_break_per_vehicle_symmetric sample_Client_check
           sample_ProblemData_check (2 ^ 44)
           {| depots := [sample_depot]; clients := [sample_client];
         vehicle_types := [sample_vehicle_type];
         distance_matrices := [[[0; 5]; [5; 0]]];
         duration_matrices := [[[0; 8]; [8; 0]]] |}
           30 (660, 840) 0 new_data bi) with (kind := Distance)
           (M0 := [[0; 5]; [5; 0]]).
  - unfold wf_data, has_shape. simpl. split_and!; repeat constructor.
  - unfold num_vehicles. simpl. lia.
  - exact Hrun.
  - reflexivity.
  - intros [|[|i]] [|[|j]] Hi Hj; try done;
      unfold num_locations, num_depots, num_clients in *; simpl in *; lia.
Defined.

Lemma Forall2_functional {A B : Type} (P : A → B → Prop)
    (l : list A) (k k' : list B) :
  (∀ x y y', P x y → P x y' → y = y') →
  Forall2 P l k → Forall2 P l k' → k = k'.
Proof.
  intros Hfun Hk. revert k'.
  induction Hk as [|x y l k Hxy _ IH]; intros k' Hk'.
  - apply Forall2_nil_inv_l in Hk'. by subst.
  - apply Forall2_cons_inv_l in Hk' as (y' & k'' & Hxy' & Hk'' & ->).
    f_equal; [by eapply Hfun|by apply IH].
Qed.

(** X20: [add_one_break_per_vehicle] reads the matrices of profile 0
    only: on two well-formed instances with the same depots, clients
    and vehicle types and the same matrices for profile 0, two calls
    that both return give the same result, whatever the other profiles
    hold. *)
Theorem add_one_break_per_vehicle_profile0_only Client_check
    ProblemData_check (MAX_VALUE : Z)
    (data data' : ProblemData) (break_service : Z) (break_tw : Z * Z)
    (depot_idx : Z) (r r' : ProblemData * list Z) :
  wf_data data → wf_data data' →
  (1 ≤ num_vehicles data)%nat →
  depots data' = depots data →
  clients data' = clients data →
  vehicle_types data' = vehicle_types data →
  distance_matrices data' !! 0%nat = distance_matrices data !! 0%nat →
  duration_matrices data' !! 0%nat = duration_matrices data !! 0%nat →
  add_one_break_per_vehicle Client_check ProblemData_check MAX_VALUE data
    break_service break_tw depot_idx = Ok r →
  add_one_break_per_vehicle Client_check ProblemData_check MAX_VALUE data'
    break_service break_tw depot_idx = Ok r' →
  r' = r.
Proof.
  intros Hwf Hwf' Hnv Hdep Hcl Hvt Hd0 Hu0 Hrun Hrun'.
  destruct r as [nd bi], r' as [nd' bi'].
  assert (num_vehicles data' = num_vehicles data) as Hnv'
    by (unfold num_vehicles; by rewrite Hvt).
  assert (num_locations data' = num_locations data) as Hn'
    by (unfold num_locations, num_depots, num_clients; by rewrite Hdep, Hcl).
  assert (0 < num_vehicles data)%nat as Hpos by lia.
  assert (0 < num_vehicles data')%nat as Hpos' by lia.
  destruct (add_one_break_per_vehicle_returns _ _ _ _ _ _ _ _ _ Hwf Hpos Hrun)
    as (depot & dists0 & durs0 & vts & dms & ums & M0d & M0u & _ & Hdepot
        & HM0d & HM0u & -> & -> & _ & _ & _ & Hdms & Hums & Hvts & _).
  destruct (add_one_break_per_vehicle_returns _ _ _ _ _ _ _ _ _ Hwf' Hpos'
              Hrun')
    as (depot' & dists0' & durs0' & vts' & dms' & ums' & M0d' & M0u' & _
        & Hdepot' & HM0d' & HM0u' & -> & -> & _ & _ & _ & Hdms' & Hums'
        & Hvts' & _).
  clear Hrun Hrun'.
  rewrite Hdep, Hdepot in Hdepot'. injection Hdepot' as <-.
  rewrite Hd0, HM0d in HM0d'. injection HM0d' as <-.
  rewrite Hu0, HM0u in HM0u'. injection HM0u' as <-.
  rewrite Hnv', Hn', Hvt in *.
  assert (dms' = dms) as ->.
  { eapply Forall2_functional; [|exact Hdms'|exact Hdms].
    intros veh M M'. apply tabulates_unique. }
  assert (ums' = ums) as ->.
  { eapply Forall2_functional; [|exact Hums'|exact Hums].
    intros veh M M'. apply tabulates_unique. }
  assert (vts' = vts) as ->.
  { eapply Forall2_functional; [|exact Hvts'|exact Hvts].
    intros veh vt vt' (p & Hp & ->) (p' & Hp' & ->).
    rewrite Hp in Hp'. by injection Hp' as <-. }
  unfold with_vehicles_matrices. simpl.
  by rewrite Hdep, Hcl.
Qed.

Lemma add_one_break_per_vehicle_profile0_only_witness :
  ∃ r r',
    add_one_break_per_vehicle sample_Client_check sample_ProblemData_check
      (2 ^ 44) sample_data 30 (660, 840) 0 = Ok r ∧
    add_one_break_per_vehicle sample_Client_check sample_ProblemData_check
      (2 ^ 44)
      {| depots := [sample_depot]; clients := [sample_client];
         vehicle_types := [sample_vehicle_type];
         distance_matrices := [[[0; 5]; [6; 0]]; [[0; 1]; [1; 0]]];
         duration_matrices := [[[0; 8]; [9; 0]]; [[0; 2]; [2; 0]]] |}
      30 (660, 840) 0 = Ok r' ∧
    r' = r.
Proof.
  destruct (add_one_break_per_vehicle sample_Client_check
              sample_ProblemData_check (2 ^ 44) sample_data 30 (660, 840) 0)
    as [r|e] eqn:Hrun; [|by vm_compute in Hrun].
  destruct (add_one_break_per_vehicle sample_Client_check
              sample_ProblemData_check (2 ^ 44)
              {| depots := [sample_depot]; clients := [sample_client];
         vehicle_types := [sample_vehicle_type];
         distance_matrices := [[[0; 5]; [6; 0]]; [[0; 1]; [1; 0]]];
         duration_matrices := [[[0; 8]; [9; 0]]; [[0; 2]; [2; 0]]] |}
              30 (660, 840) 0)
    as [r'|e] eqn:Hrun'; [|by vm_compute in Hrun'].
  exists r, r'. split; [done|]. split; [done|].
  apply (add_one_break_per_vehicle_profile0_only sample_Client_check
           sample_ProblemData_check (2 ^ 44) sample_data
           {| depots := [sample_depot]; clients := [sample_client];
         vehicle_types := [sample_vehicle_type];
         distance_matrices := [[[0; 5]; [6; 0]]; [[0; 1]; [1; 0]]];
         duration_matrices := [[[0; 8]; [9; 0]]; [[0; 2]; [2; 0]]] |}
           30 (660, 840) 0 r r'); try reflexivity.
  - exact sample_data_wf.
  - unfold wf_data, has_shape. simpl. split_and!; repeat constructor.
  - unfold num_vehicles. simpl. lia.
  - exact Hrun.
  - exact Hrun'.
Defined.
